(** * The slot-override resolution pipeline of Joy UI's FormControl

  A shallow embedding of [packages/mui-joy/src/FormControl/FormControl.tsx]:
  the ownerState -> utility classes -> slot -> context-value pipeline that
  one render of the component runs, together with the per-instance mutable
  cells (the [registeredInput] ref, the [helperText] state, the [useMemo]
  cache) that survive between renders.

  JavaScript objects are finite maps from property names to values, objects
  and functions that are only passed around are opaque handles, and code
  that can throw returns [option]. *)

From Stdlib Require Import ZArith String Ascii List Lia.
From stdpp Require Import base option list strings pretty gmap fin_maps.

Local Open Scope string_scope.
Local Open Scope Z_scope.

(** ** JavaScript values and the operators the component uses *)

Module Js.

(** A JavaScript value. Numbers are the integer-valued ones; [VObj] is a
    reference to an object or a function, compared by identity. *)
Inductive value : Type :=
| VUndefined
| VNull
| VBool (b : bool)
| VNum (n : Z)
| VStr (s : string)
| VObj (h : positive).

#[global] Instance value_eq_dec : EqDecision value.
Proof. solve_decision. Defined.

#[global] Instance value_inhabited : Inhabited value := populate VUndefined.

(** Property read [o[k]] and destructuring [const { k } = o]: a missing
    key reads as [undefined]. *)
Definition get (o : gmap string value) (k : string) : value :=
  default VUndefined (o !! k).

(** ToBoolean. *)
Definition truthy (v : value) : bool :=
  match v with
  | VUndefined | VNull => false
  | VBool b => b
  | VNum n => negb (n =? 0)
  | VStr s => negb (String.eqb s "")
  | VObj _ => true
  end.

(** [a && b] on already evaluated operands. *)
Definition and_ (a b : value) : value := if truthy a then b else a.

(** Destructuring default [const { k = d } = o]: the default replaces
    [undefined] only ([null], [false], [0] and the empty string stay). *)
Definition dflt (d v : value) : value :=
  match v with VUndefined => d | _ => v end.

(** ToString, as a template literal applies it to an interpolated value. *)
Definition to_str (v : value) : string :=
  match v with
  | VUndefined => "undefined"
  | VNull => "null"
  | VBool true => "true"
  | VBool false => "false"
  | VNum n => pretty n
  | VStr s => s
  | VObj _ => "[object Object]"
  end.

Definition is_string (v : value) : bool :=
  match v with VStr _ => true | _ => false end.
Definition is_bool (v : value) : bool :=
  match v with VBool _ => true | _ => false end.
Definition nullish (v : value) : bool :=
  match v with VUndefined | VNull => true | _ => false end.
Definition is_object (v : value) : bool :=
  match v with VObj _ => true | _ => false end.

(** The class names that one argument of [clsx] contributes when it is not
    an object: a non-empty string, a non-zero number, or none. *)
Definition classList (v : value) : list string :=
  match v with
  | VStr s => if decide (s = "") then [] else [s]
  | VNum n => if decide (n = 0) then [] else [pretty n]
  | _ => []
  end.

(** [clsx(...args)] of the clsx package: the class names of its arguments,
    separated by one space. An object or array argument is expanded by its
    contents, which a handle does not show: [None]. *)
Definition clsx_arg (v : value) : option (list string) :=
  match v with
  | VObj _ => None
  | _ => Some (classList v)
  end.

Definition clsx (args : list value) : option string :=
  parts ← mapM clsx_arg args; Some (String.concat " " (concat parts)).

(** What a call leaves behind: a result, or an exception. *)
Inductive outcome (A : Type) : Type :=
| Returned (a : A)
| Thrown (e : value).
Arguments Returned {A} a.
Arguments Thrown {A} e.

End Js.

Import Js.

(** ** Collaborators of the component that live in other packages *)

Module Utils.

Definition upper (c : ascii) : ascii :=
  let n := nat_of_ascii c in
  if ((97 <=? n) && (n <=? 122))%nat then ascii_of_nat (n - 32) else c.

(** Modelled from the spec: [capitalize] of [@mui/utils], imported by
    FormControl.tsx and not among the sources. The spec calls it
    [PascalCase(value)] and shows [colorPrimary], [sizeLg] and [sizeSm]:
    the first character in upper case, the rest as it is. *)
Definition capitalize (s : string) : string :=
  match s with
  | EmptyString => EmptyString
  | String c r => String (upper c) r
  end.

End Utils.

Module Theme.

(** Modelled from the spec: the injection rule of the Theme Defaults
    Resolver for one key, [d] the theme default and [p] the caller's
    entry. Only a missing key or a key present as [undefined] takes the
    default; [false], [0] and the empty string are kept. *)
Definition inject (d p : option value) : option value :=
  match p with
  | None | Some VUndefined =>
      match d with
      | Some v => Some v
      | None => p
      end
  | Some v => Some v
  end.

(** Modelled from the spec: [resolveThemeDefaults(name, props)], the
    [useThemeProps] of [../styles] that FormControl.tsx calls and whose
    code is not among the sources. [theme] is the process-wide table,
    component name to default props; an unregistered name returns the
    input unchanged. *)
Definition resolveThemeDefaults (theme : gmap string (gmap string value))
    (name : string) (inputProps : gmap string value) : gmap string value :=
  match theme !! name with
  | None => inputProps
  | Some defaults => merge inject defaults inputProps
  end.

End Theme.

Module Composer.

(** Order-preserving removal of duplicates: the first occurrence stays. *)
Fixpoint dedup (l : list string) : list string :=
  match l with
  | [] => []
  | x :: l' => x :: filter (λ y, y ≠ x) (dedup l')
  end.

(** Modelled from the spec: the token set of a slot, steps 2 and 3 of the
    Utility Class Composer, computed by the [composeClasses] of [@mui/base]
    that [useUtilityClasses] ends with and whose code is not among the
    sources. The entries of a slot's array that are falsy ([undefined],
    [false], the empty string) are absent tokens; the others are the
    slot's tokens, deduplicated, in order. *)
Definition tokens (keys : list value) : list string :=
  dedup (to_str <$> filter (λ k, truthy k = true) keys).

(** Modelled from the spec: the class names of one token, step 4. The naming
    function gives the internal name, the empty string for an unmapped
    token, which then produces no class; the caller's global override
    for the same token is appended after it. *)
Definition classNames (getUtilityClass : string → string)
    (classes : gmap string value) (t : string) : list string :=
  (if decide (getUtilityClass t = "") then [] else [getUtilityClass t])
  ++ (if truthy (get classes t) then [to_str (get classes t)] else []).

(** Modelled from the spec: [composeClasses(slots, getUtilityClass,
    classes)], slot name to its class string. *)
Definition composeClasses (slots : gmap string (list value))
    (getUtilityClass : string → string) (classes : gmap string value)
    : gmap string value :=
  (λ keys, VStr (String.concat " "
                   (concat (classNames getUtilityClass classes <$> tokens keys))))
  <$> slots.

End Composer.

Module Slot.

(** The caller's per-slot overrides: a render target and a bag of props
    for the slots the caller names. *)
Record Overrides : Type := mkOverrides {
  targets : gmap string value;
  overrideProps : gmap string (gmap string value)
}.

(** One more override, for the slot [k]. *)
Definition overriding (ov : Overrides) (k : string) (target : value)
    (props : gmap string value) : Overrides :=
  {| targets := <[k := target]> (targets ov);
     overrideProps := <[k := props]> (overrideProps ov) |}.

(** SlotConfig of the spec, the second argument of [useSlot]. A slot that is
    handed no ref has [ref = None]. *)
Record SlotConfig : Type := mkSlotConfig {
  ref : option value;
  className : value;
  elementType : value;
  externalForwardedProps : gmap string value;
  ownerState : gmap string value;
  additionalProps : gmap string value
}.

Record Resolved : Type := mkResolved {
  renderTarget : value;
  finalProps : gmap string value;
  finalOwnerState : gmap string value;
  forwardedRef : option value
}.

(** No class name that reaches the slot is given as an object. *)
Definition plainClassNames (ov : Overrides) (slotName : string)
    (config : SlotConfig) : bool :=
  forallb (λ v, negb (is_object v))
    [ className config;
      get (externalForwardedProps config) "className";
      get (default ∅ (overrideProps ov !! slotName)) "className" ].

(** Modelled from the spec: [resolveSlot(slotName, config)], the [useSlot]
    of [../utils/useSlot] that FormControl.tsx calls and whose code is not
    among the sources. The render target is the caller's override for this
    exact slot name, else the declared one. The final props are, lowest
    first: the static props, the style variables computed from the
    ownerState, the forwarded props, the caller's override props for this
    slot; the class name on top is the computed one followed by the
    caller's. The ref of the config goes to the resolved slot. *)
Definition resolveSlot (styleVariables : gmap string value → gmap string value)
    (ov : Overrides) (slotName : string) (config : SlotConfig)
    : option Resolved :=
  let slotProps := default ∅ (overrideProps ov !! slotName) in
  cn ← clsx [className config;
             get (externalForwardedProps config) "className";
             get slotProps "className"];
  Some {| renderTarget := default (elementType config) (targets ov !! slotName);
          finalProps :=
            <["className" := VStr cn]>
              (slotProps ∪ externalForwardedProps config
               ∪ styleVariables (ownerState config) ∪ additionalProps config);
          finalOwnerState := ownerState config;
          forwardedRef := ref config |}.

(** Modelled from the spec: what a component declares about its slots, the
    slot names and, when it is not the root, the slot marked to receive the
    forwarded ref. *)
Record Component : Type := mkComponent {
  slots : list string;
  refTarget : option string
}.

Definition refSlot (c : Component) : string := default "root" (refTarget c).

Definition withRef (r : option value) (config : SlotConfig) : SlotConfig :=
  {| ref := r;
     className := className config;
     elementType := elementType config;
     externalForwardedProps := externalForwardedProps config;
     ownerState := ownerState config;
     additionalProps := additionalProps config |}.

(** Modelled from the spec: one render resolves every declared slot, and
    hands the forwarded ref to the ref slot of the component only. *)
Definition resolveSlots (styleVariables : gmap string value → gmap string value)
    (ov : Overrides) (c : Component) (configOf : string → SlotConfig)
    (forwarded : value) : option (list Resolved) :=
  mapM (λ slotName,
          resolveSlot styleVariables ov slotName
            (withRef (if decide (slotName = refSlot c) then Some forwarded else None)
                     (configOf slotName)))
       (slots c).

End Slot.

(** ** FormControl.tsx *)

Module FormControl.

Import Utils Composer Slot.

(** What FormControl.tsx imports from files that are not among the
    sources, and the build mode. *)
Record Imports : Type := mkImports {
  NODE_ENV : string;
  (* [useThemeProps({ props, name })] of [../styles] *)
  useThemeProps : gmap string value → string → gmap string value;
  (* [useId(idOverride)] of [@mui/utils] *)
  useId : value → value;
  (* [getFormControlUtilityClass(slot)] of [./formControlClasses] *)
  getFormControlUtilityClass : string → string;
  (* the overrides that [useSlot] reads out of the caller's props *)
  callerOverrides : gmap string value → Overrides;
  (* the style function of a styled element *)
  styleVariables : gmap string value → gmap string value;
  (* the handle of the styled element [FormControlRoot] *)
  FormControlRoot : value
}.

Definition componentName : string := "JoyFormControl".

(** *** [FormControl.propTypes] *)

Definition oneOf (l : list string) (v : value) : bool :=
  match v with
  | VStr s => bool_decide (s ∈ l)
  | _ => false
  end.

Definition propTypes : list (string * (value → bool)) :=
  [ ("children", λ _, true);
    ("className", is_string);
    ("color", λ v, oneOf ["danger"; "info"; "neutral"; "primary"; "success"; "warning"] v
                   || is_string v);
    ("component", λ v, is_string v || is_object v);
    ("disabled", is_bool);
    ("error", is_bool);
    ("id", is_string);
    ("orientation", oneOf ["horizontal"; "vertical"]);
    ("required", is_bool);
    ("size", λ v, oneOf ["sm"; "md"; "lg"] v || is_string v);
    ("sx", is_object) ].

(** A prop that is not required passes when it is [undefined] or [null]. *)
Definition checkPropTypes (props : gmap string value) : bool :=
  forallb (λ kc, nullish (get props kc.1) || kc.2 (get props kc.1)) propTypes.

(** *** [useUtilityClasses] *)

(** [`${dimension}${capitalize(v)}`]: [capitalize] takes a string. *)
Definition template (dimension : string) (v : value) : option value :=
  match v with
  | VStr s => Some (VStr (dimension +:+ capitalize s))
  | _ => None
  end.

(** [v && `${dimension}${capitalize(v)}`] *)
Definition and_template (v : value) (dimension : string) : option value :=
  if truthy v then template dimension v else Some v.

(** The array [slots.root]. *)
Definition rootSlot (ownerState : gmap string value) : option (list value) :=
  let disabled := get ownerState "disabled" in
  let error := get ownerState "error" in
  let size := get ownerState "size" in
  let color := get ownerState "color" in
  let orientation := get ownerState "orientation" in
  c ← and_template color "color";
  s ← and_template size "size";
  Some [ VStr "root";
         orientation;
         and_ disabled (VStr "disabled");
         and_ error (VStr "error");
         c;
         s ].

(** The token set of the root slot. *)
Definition rootTokens (ownerState : gmap string value) : option (list string) :=
  tokens <$> rootSlot ownerState.

Definition useUtilityClasses (I : Imports) (ownerState : gmap string value)
    : option (gmap string value) :=
  root ← rootSlot ownerState;
  Some (composeClasses {[ "root" := root ]} (getFormControlUtilityClass I) ∅).

(** *** The state of one mounted instance *)

Record Instance : Type := mkInstance {
  (* [registeredInput.current] *)
  registeredInput : bool;
  (* the [helperText] state, [HTMLElement | null]: the handle of the
     registered element, if any *)
  helperText : option positive;
  (* the setter [setHelperText], the same function on every render *)
  setHelperText : value;
  (* the [useMemo] cell: the dependencies and the value of the last render *)
  memo : option (list value * gmap string value);
  (* the handle the next closure gets *)
  nextClosure : positive;
  (* what [console.error] has printed *)
  console : list string
}.

(** A new instance: [useRef(false)], [useState(null)], an empty memo cell.
    The setter takes the handle [first], the closures the ones after it. *)
Definition mount (first : positive) : Instance :=
  {| registeredInput := false; helperText := None;
     setHelperText := VObj first; memo := None;
     nextClosure := Pos.succ first; console := [] |}.

(** Calls that read and write the instance, and may throw. *)
Definition Eff (A : Type) : Type := Instance → outcome A * Instance.

Definition ret {A : Type} (a : A) : Eff A := λ i, (Returned a, i).

Definition bind {A B : Type} (m : Eff A) (k : A → Eff B) : Eff B :=
  λ i, match m i with
       | (Returned a, i') => k a i'
       | (Thrown e, i') => (Thrown e, i')
       end.

Notation "x ←ₑ m ; k" := (bind m (λ x, k))
  (at level 20, m at level 100, k at level 200, only parsing).
Notation "m ;;ₑ k" := (bind m (λ _, k))
  (at level 100, k at level 200, right associativity, only parsing).

Definition readRegisteredInput : Eff bool :=
  λ i, (Returned (registeredInput i), i).

Definition writeRegisteredInput (b : bool) : Eff unit :=
  λ i, (Returned tt,
        {| registeredInput := b; helperText := helperText i;
           setHelperText := setHelperText i; memo := memo i;
           nextClosure := nextClosure i; console := console i |}).

Definition console_error (msg : string) : Eff unit :=
  λ i, (Returned tt,
        {| registeredInput := registeredInput i; helperText := helperText i;
           setHelperText := setHelperText i; memo := memo i;
           nextClosure := nextClosure i; console := console i ++ [msg] |}).

Definition newline : string := String (ascii_of_nat 10) EmptyString.

Definition misuseMessage : string :=
  String.concat newline
    [ "Joy: A FormControl can contain only one Input, Textarea, or Select component";
      "You should not mix those components inside a single FormControl instance" ].

(** The body of the closure [registerEffect]; its result is the cleanup. *)
Definition registerEffect : Eff (Eff unit) :=
  current ←ₑ readRegisteredInput;
  (if current then console_error misuseMessage else ret tt) ;;ₑ
  writeRegisteredInput true ;;ₑ
  ret (writeRegisteredInput false).

(** [let registerEffect]: assigned in a build that is not a production
    build only. *)
Definition registerEffectOf (I : Imports) : option (Eff (Eff unit)) :=
  if decide (NODE_ENV I ≠ "production") then Some registerEffect else None.

(** *** One render *)

(** The keys that the destructuring of [props] names. *)
Definition destructured : list string :=
  [ "id"; "className"; "component"; "disabled"; "required"; "error";
    "color"; "size"; "orientation" ].

(** [...other]: [props] without the keys named before it. *)
Definition rest (props : gmap string value) : gmap string value :=
  foldr delete props destructured.

(** The constants of one render, after [useThemeProps], the destructuring
    with its defaults, and [useId]. *)
Record Locals : Type := mkLocals {
  l_props : gmap string value;
  l_idOverride : value;
  l_className : value;
  l_component : value;
  l_disabled : value;
  l_required : value;
  l_error : value;
  l_color : value;
  l_size : value;
  l_orientation : value;
  l_other : gmap string value;
  l_id : value
}.

Definition locals (I : Imports) (inProps : gmap string value) : Locals :=
  let props := useThemeProps I inProps componentName in
  let idOverride := get props "id" in
  {| l_props := props;
     l_idOverride := idOverride;
     l_className := get props "className";
     l_component := dflt (VStr "div") (get props "component");
     l_disabled := dflt (VBool false) (get props "disabled");
     l_required := dflt (VBool false) (get props "required");
     l_error := dflt (VBool false) (get props "error");
     l_color := get props "color";
     l_size := dflt (VStr "md") (get props "size");
     l_orientation := dflt (VStr "vertical") (get props "orientation");
     l_other := rest props;
     l_id := useId I idOverride |}.

(** [const ownerState = { ...props, id, component, color, disabled, error,
    required, size, orientation }] *)
Definition ownerState (l : Locals) : gmap string value :=
  <["orientation" := l_orientation l]>
    (<["size" := l_size l]>
       (<["required" := l_required l]>
          (<["error" := l_error l]>
             (<["disabled" := l_disabled l]>
                (<["color" := l_color l]>
                   (<["component" := l_component l]>
                      (<["id" := l_id l]> (l_props l)))))))).

(** The state [helperText] as a value. *)
Definition helperTextValue (inst : Instance) : value :=
  match helperText inst with
  | Some element => VObj element
  | None => VNull
  end.

(** The closure [registerEffect] of this render, as a value: a new function
    on every render, [undefined] in a production build. *)
Definition registerEffectValue (I : Imports) (inst : Instance) : value :=
  if decide (NODE_ENV I ≠ "production") then VObj (nextClosure inst)
  else VUndefined.

(** The object that the factory of [useMemo] builds. *)
Definition contextValue (l : Locals) (inst : Instance) (registerEffect : value)
    : gmap string value :=
  list_to_map
    [ ("disabled", l_disabled l);
      ("required", l_required l);
      ("error", l_error l);
      ("color", l_color l);
      ("size", l_size l);
      ("htmlFor", l_id l);
      ("labelId", VStr (to_str (l_id l) +:+ "-label"));
      ("aria-describedby",
        if truthy (helperTextValue inst)
        then VStr (to_str (l_id l) +:+ "-helper-text")
        else VUndefined);
      ("setHelperText", setHelperText inst);
      ("registerEffect", registerEffect) ].

(** The dependency array of [useMemo]. *)
Definition dependencies (l : Locals) (inst : Instance) (registerEffect : value)
    : list value :=
  [ l_color l; l_disabled l; l_error l; helperTextValue inst; l_id l;
    registerEffect; l_required l; l_size l ].

(** [React.useMemo(factory, deps)]: the value of the last render when no
    dependency has changed, else what the factory builds now. *)
Definition useMemo (cell : option (list value * gmap string value))
    (factory : gmap string value) (deps : list value) : gmap string value :=
  match cell with
  | Some (deps', v) => if decide (deps' = deps) then v else factory
  | None => factory
  end.

(** [useSlot(name, parameters)], through the resolver of the spec. *)
Definition useSlot (I : Imports) (name : string) (parameters : SlotConfig)
    : option Resolved :=
  resolveSlot (styleVariables I)
    (callerOverrides I (externalForwardedProps parameters)) name parameters.

(** The parameters of [useSlot('root', ...)]. *)
Definition rootParameters (I : Imports) (l : Locals) (ref : value)
    (classes : gmap string value) : option SlotConfig :=
  cn ← clsx [get classes "root"; l_className l];
  Some {| Slot.ref := Some ref;
          Slot.className := VStr cn;
          elementType := FormControlRoot I;
          externalForwardedProps := <["component" := l_component l]> (l_other l);
          Slot.ownerState := ownerState l;
          additionalProps := ∅ |}.

(** What one render returns: the value given to the context provider and
    the resolved root slot. *)
Record Rendered : Type := mkRendered {
  formControlContextValue : gmap string value;
  SlotRoot : value;
  rootProps : gmap string value;
  rootRef : option value;
  rootOwnerState : gmap string value
}.

(** The function component; [None] when the render throws. *)
Definition FormControl (I : Imports) (inProps : gmap string value)
    (ref : value) (inst : Instance) : option (Rendered * Instance) :=
  let l := locals I inProps in
  let registerEffect := registerEffectValue I inst in
  classes ← useUtilityClasses I (ownerState l);
  parameters ← rootParameters I l ref classes;
  slot ← useSlot I "root" parameters;
  let deps := dependencies l inst registerEffect in
  let ctx := useMemo (memo inst) (contextValue l inst registerEffect) deps in
  Some ({| formControlContextValue := ctx;
           SlotRoot := renderTarget slot;
           rootProps := finalProps slot;
           rootRef := forwardedRef slot;
           rootOwnerState := finalOwnerState slot |},
        {| registeredInput := registeredInput inst;
           helperText := helperText inst;
           setHelperText := setHelperText inst;
           memo := Some (deps, ctx);
           nextClosure := Pos.succ (nextClosure inst);
           console := console inst |}).


(** The slots FormControl declares: the root, which takes the ref. *)
Definition declaration : Component :=
  {| slots := ["root"]; refTarget := None |}.

(** *** The life of an instance *)

Inductive Event : Type :=
| Render (inProps : gmap string value) (ref : value)
| SetHelperText (element : option positive)
| RegisterEffect
| Cleanup.

Definition setHelperTextTo (element : option positive) (inst : Instance)
    : Instance :=
  {| registeredInput := registeredInput inst; helperText := element;
     setHelperText := setHelperText inst; memo := memo inst;
     nextClosure := nextClosure inst; console := console inst |}.

(** A child calls [registerEffect] and its cleanup only where the context
    holds them, that is, outside a production build. *)
Definition handle (I : Imports) (inst : Instance) (e : Event) : Instance :=
  match e with
  | Render inProps ref =>
      match FormControl I inProps ref inst with
      | Some (_, inst') => inst'
      | None => inst
      end
  | SetHelperText element => setHelperTextTo element inst
  | RegisterEffect =>
      match registerEffectOf I with
      | Some f => (f inst).2
      | None => inst
      end
  | Cleanup =>
      match registerEffectOf I with
      | Some _ => (writeRegisteredInput false inst).2
      | None => inst
      end
  end.

Definition run (I : Imports) (events : list Event) (inst : Instance) : Instance :=
  foldl (handle I) inst events.

(** *** The contract of the spec for the OwnerState Builder *)

(** In the words of the spec: [buildOwnerState(resolvedProps,
    internalState)] merges the two into one flat mapping, and the value of
    [internalState] wins for a key that both have. *)
Definition buildOwnerState (resolvedProps internalState : gmap string value)
    : gmap string value :=
  internalState ∪ resolvedProps.

(** The internal state that the object literal of [ownerState] lists
    after [...props]. *)
Definition internalState (l : Locals) : gmap string value :=
  list_to_map
    [ ("id", l_id l); ("component", l_component l); ("color", l_color l);
      ("disabled", l_disabled l); ("error", l_error l);
      ("required", l_required l); ("size", l_size l);
      ("orientation", l_orientation l) ].

(** The memo cell holds what the factory builds from the dependencies it
    was filled with. *)
Definition memoSound (inst : Instance) : Prop :=
  match memo inst with
  | Some (deps, v) =>
      ∃ l i registerEffect,
        setHelperText i = setHelperText inst
        ∧ dependencies l i registerEffect = deps
        ∧ v = contextValue l i registerEffect
  | None => True
  end.

(** The props of the root slot that the caller overrides. *)
Definition rootOverrideProps (I : Imports) (l : Locals) : gmap string value :=
  default ∅
    (overrideProps
       (callerOverrides I (<["component" := l_component l]> (l_other l)))
     !! "root").

End FormControl.

(** ** Inputs of the scenarios *)

Module Scenario.

Import FormControl.

(** The ownerState of the Slider scenario of the spec, given to
    FormControl's composer. *)
Definition scenarioFull : gmap string value :=
  list_to_map
    [ ("orientation", VStr "vertical"); ("size", VStr "lg");
      ("color", VStr "primary"); ("disabled", VBool true) ].

Definition scenarioHorizontal : gmap string value :=
  list_to_map [ ("orientation", VStr "horizontal"); ("size", VStr "sm") ].

(** An environment to run the component in: the theme resolver of the
    spec over [theme], an [id] taken from the caller or else generated, and
    a naming function that prefixes the component name. *)
Definition imports (mode : string) (theme : gmap string (gmap string value))
    : Imports :=
  {| NODE_ENV := mode;
     useThemeProps := λ props name, Theme.resolveThemeDefaults theme name props;
     useId := λ idOverride, dflt (VStr ":r0:") idOverride;
     getFormControlUtilityClass := λ slot, "JoyFormControl-" +:+ slot;
     callerOverrides := λ _, Slot.mkOverrides ∅ ∅;
     styleVariables := λ _, ∅;
     FormControlRoot := VObj 1 |}.

Definition development : Imports := imports "development" ∅.

Definition firstInstance : Instance := mount 2.

(** The props of the second scenario with a class name of the caller. *)
Definition scenarioClassName : gmap string value :=
  <["className" := VStr "mt-2"]> scenarioHorizontal.

(** The caller replaces the render target of the root slot. *)
Definition sectionOverride : Slot.Overrides :=
  Slot.overriding (Slot.mkOverrides ∅ ∅) "root" (VStr "section") ∅.

Definition rootConfig : Slot.SlotConfig :=
  {| Slot.ref := None;
     Slot.className := VStr "JoyFormControl-root";
     Slot.elementType := VObj 1;
     Slot.externalForwardedProps := ∅;
     Slot.ownerState := scenarioHorizontal;
     Slot.additionalProps := ∅ |}.

(** What happened to the instance before the render of the last scenario:
    a render, the registration of a helper text and of an input. *)
Definition history : list Event :=
  [ Render scenarioHorizontal VNull; SetHelperText (Some 7%positive);
    RegisterEffect ].

End Scenario.

(** ** The styled root element *)

Module RootStyle.

Import FormControl.

(** A value of a style object: a declaration, or the nested object of a
    selector. *)
Inductive style : Type :=
| Decl (v : value)
| Rule (declarations : gmap string value).

(** [theme.vars]: the palettes by name, each a table of tokens, and the
    font sizes. *)
Record ThemeVars : Type := mkThemeVars {
  palette : gmap string (gmap string value);
  fontSize : gmap string value
}.

(** An entry of an object literal: [key: a], or the spread
    [...(cond && { fields })], which copies nothing when [cond] is false. *)
Inductive entry (A : Type) : Type :=
| Field (key : string) (a : A)
| SpreadWhen (cond : bool) (fields : list (string * A)).
Arguments Field {A} key a.
Arguments SpreadWhen {A} cond fields.

Definition put {A : Type} (o : gmap string A) (kv : string * A) : gmap string A :=
  <[kv.1 := kv.2]> o.

Definition step {A : Type} (o : gmap string A) (e : entry A) : gmap string A :=
  match e with
  | Field key a => put o (key, a)
  | SpreadWhen cond fields => if cond then foldl put o fields else o
  end.

(** The object an object literal evaluates to: the entries are written
    from left to right, a later key replacing an earlier equal one. *)
Definition literal {A : Type} (entries : list (entry A)) : gmap string A :=
  foldl step ∅ entries.

(** Reading the key [k] of an object literal: the last entry that writes
    [k] decides. *)
Fixpoint lastWrite {A : Type} (k : string) (fields : list (string * A))
    : option A :=
  match fields with
  | [] => None
  | kv :: fields' =>
      match lastWrite k fields' with
      | Some a => Some a
      | None => if decide (kv.1 = k) then Some kv.2 else None
      end
  end.

Fixpoint read {A : Type} (k : string) (entries : list (entry A)) : option A :=
  match entries with
  | [] => None
  | e :: entries' =>
      match read k entries' with
      | Some a => Some a
      | None =>
          match e with
          | Field key a => if decide (key = k) then Some a else None
          | SpreadWhen cond fields => if cond then lastWrite k fields else None
          end
      end
  end.

(** [a || b] on already evaluated operands. *)
Definition or_ (a b : value) : value := if truthy a then a else b.

(** [theme.vars.palette[key]?.[token]]: [undefined] when the theme has no
    palette of that name. *)
Definition paletteToken (theme : ThemeVars) (key : value) (token : string)
    : value :=
  match palette theme !! to_str key with
  | Some p => get p token
  | None => VUndefined
  end.

(** [ownerState.orientation === 'horizontal' ? a : b] *)
Definition whenHorizontal (ownerState : gmap string value) (a b : string)
    : value :=
  if decide (get ownerState "orientation" = VStr "horizontal")
  then VStr a else VStr b.

(** The declarations of one size. *)
Definition sizeFields (theme : ThemeVars) (ownerState : gmap string value)
    (label helper : string) (margin : string) : list (string * style) :=
  [ ("--FormLabel-fontSize", Decl (get (fontSize theme) label));
    ("--FormHelperText-fontSize", Decl (get (fontSize theme) helper));
    ("--FormLabel-margin",
      Decl (whenHorizontal ownerState margin "0 0 0.25rem 0")) ].

(** The style function given to [styled('div', ...)] for [FormControlRoot]:
    [({ theme, ownerState }) => ({ ... })]. [formControlClasses] is the
    object imported from [./formControlClasses]. Reading [[500]] of
    [theme.vars.palette.danger] throws when the theme has no such
    palette: [None]. *)
Definition FormControlRootStyles (formControlClasses : gmap string value)
    (theme : ThemeVars) (ownerState : gmap string value)
    : option (gmap string style) :=
  danger ← palette theme !! "danger";
  let color := get ownerState "color" in
  let size := get ownerState "size" in
  Some (literal
    [ Field "--FormLabel-alignSelf"
        (Decl (whenHorizontal ownerState "align-items" "flex-start"));
      Field "--FormHelperText-margin" (Decl (VStr "0.375rem 0 0 0"));
      Field "--FormLabel-asteriskColor" (Decl (get danger "500"));
      SpreadWhen (bool_decide (color ≠ VStr "context"))
        [ ("--FormHelperText-color", Decl (paletteToken theme color "500")) ];
      SpreadWhen (bool_decide (size = VStr "sm"))
        (sizeFields theme ownerState "xs" "xs" "0 0.5rem 0 0");
      SpreadWhen (bool_decide (size = VStr "md"))
        (sizeFields theme ownerState "sm" "sm" "0 0.75rem 0 0");
      SpreadWhen (bool_decide (size = VStr "lg"))
        (sizeFields theme ownerState "md" "sm" "0 1rem 0 0");
      Field ("&." +:+ to_str (get formControlClasses "error"))
        (Rule (literal [ Field "--FormHelperText-color" (get danger "500") ]));
      Field ("&." +:+ to_str (get formControlClasses "disabled"))
        (Rule (literal
           [ SpreadWhen (bool_decide (color ≠ VStr "context"))
               [ ("--FormLabel-color",
                   paletteToken theme (or_ color (VStr "neutral"))
                     "plainDisabledColor");
                 ("--FormHelperText-color",
                   paletteToken theme (or_ color (VStr "neutral"))
                     "plainDisabledColor") ] ]));
      Field "display" (Decl (VStr "flex"));
      Field "position" (Decl (VStr "relative"));
      Field "flexDirection" (Decl (whenHorizontal ownerState "row" "column")) ]).

End RootStyle.

(** ** The shape of the ownerState *)

Module Shape.

(** The keys that the object literal of [ownerState] writes after the
    spread. *)
Definition internalKeys : gset string :=
  {[ "id"; "component"; "color"; "disabled"; "error"; "required"; "size";
     "orientation" ]}.

End Shape.

(** ** Histories of an instance *)

Module History.

Import FormControl.

(** Registrations and cleanups take turns: no [registerEffect] runs while
    a registration is [pending]. *)
Fixpoint alternating (pending : bool) (events : list Event) : bool :=
  match events with
  | [] => true
  | RegisterEffect :: events' => negb pending && alternating true events'
  | Cleanup :: events' => alternating false events'
  | _ :: events' => alternating pending events'
  end.

(** The closure that the memo cell remembers is older than the next one. *)
Definition closureOlder (inst : Instance) : Prop :=
  match memo inst with
  | Some (deps, _) =>
      ∀ h, deps !! 5%nat = Some (VObj h) → (h < nextClosure inst)%positive
  | None => True
  end.

(** React development mode mounts an input, unmounts it and mounts it
    again, around two renders of the control. *)
Definition remount : list Event :=
  [ Render ∅ VNull; RegisterEffect; Cleanup; RegisterEffect;
    SetHelperText (Some 5%positive); Render ∅ VNull ].

End History.

(** ** Inputs of the style scenarios *)

Module Samples.

(** A theme with the palettes and font sizes the style function reads. *)
Definition sampleTheme : RootStyle.ThemeVars :=
  {| RootStyle.palette :=
       list_to_map
         [ ("danger", list_to_map [ ("500", VStr "#d3232f") ]);
           ("neutral", list_to_map [ ("500", VStr "#73738c");
                                     ("plainDisabledColor", VStr "#b9b9c6") ]);
           ("primary", list_to_map [ ("500", VStr "#096bde");
                                     ("plainDisabledColor", VStr "#99ccf3") ]) ];
     RootStyle.fontSize :=
       list_to_map [ ("xs", VStr "0.75rem"); ("sm", VStr "0.875rem");
                     ("md", VStr "1rem") ] |}.

Definition sampleClasses : gmap string value :=
  list_to_map [ ("error", VStr "Joy-error"); ("disabled", VStr "Joy-disabled") ].

(** The environment of the scenarios, in a production build. *)
Definition production : FormControl.Imports := Scenario.imports "production" ∅.

(** Props with a key the component does not name, and props with an
    explicit [null]. *)
Definition scenarioForwarded : gmap string value :=
  <["data-testid" := VStr "control"]> Scenario.scenarioClassName.

Definition scenarioNull : gmap string value := {[ "disabled" := VNull ]}.

End Samples.

(** * Properties *)

Import Utils Theme Composer Slot FormControl Scenario.

(** ** Values and maps *)

Section JsFacts.

Implicit Types (o : gmap string value) (v d : value) (k : string).

Lemma get_insert_eq o k v : get (<[k := v]> o) k = v.
Proof. unfold get. by rewrite lookup_insert_eq. Qed.

Lemma get_insert_ne o k k' v : k ≠ k' → get (<[k := v]> o) k' = get o k'.
Proof. intros Hne. unfold get. by rewrite lookup_insert_ne. Qed.

Lemma dflt_undefined d : dflt d VUndefined = d.
Proof. reflexivity. Qed.

Lemma dflt_defined d v : v ≠ VUndefined → dflt d v = v.
Proof. by destruct v. Qed.

Lemma truthy_str s : truthy (VStr s) = true ↔ s ≠ "".
Proof.
  simpl. destruct (String.eqb_spec s ""); simpl; split; congruence.
Qed.

End JsFacts.

(** ** Class names *)

Section ClassNames.

Implicit Types (L M : list string) (v : value) (sep : string).

Lemma string_app_assoc (a b c : string) : (a +:+ b) +:+ c = a +:+ (b +:+ c).
Proof.
  induction a as [|x a IH]; [done|].
  change (String x ((a +:+ b) +:+ c) = String x (a +:+ b +:+ c)).
  by rewrite IH.
Qed.

Lemma concat_app sep L M :
  String.concat sep (L ++ M)
  = match L, M with
    | [], _ => String.concat sep M
    | _, [] => String.concat sep L
    | _, _ => String.concat sep L +:+ sep +:+ String.concat sep M
    end.
Proof.
  induction L as [|x [|y L] IH].
  - done.
  - by destruct M.
  - destruct M as [|z M]; [by rewrite !app_nil_r|].
    change (String.concat sep ((x :: y :: L) ++ z :: M))
      with (x +:+ sep +:+ String.concat sep ((y :: L) ++ z :: M)).
    rewrite IH.
    change (String.concat sep (x :: y :: L))
      with (x +:+ sep +:+ String.concat sep (y :: L)).
    by rewrite !string_app_assoc.
Qed.

Lemma concat_nonempty sep L :
  L ≠ [] → Forall (λ x, x ≠ "") L → String.concat sep L ≠ "".
Proof.
  destruct L as [|x [|y L]]; [done| |]; intros _ Hall;
    apply Forall_cons in Hall as [Hx _]; [done|].
  destruct x; [done|]. discriminate.
Qed.

Lemma pretty_N_go_grows (x : N) (s : string) :
  (String.length s ≤ String.length (pretty_N_go x s))%nat.
Proof.
  revert s. induction (N.lt_wf_0 x) as [x _ IH]; intros s.
  destruct (decide (x = 0%N)) as [->|Hpos]; [by rewrite pretty_N_go_0|].
  rewrite pretty_N_go_step by lia.
  etrans; [|apply IH; apply N.div_lt; lia]. simpl. lia.
Qed.

Lemma pretty_positive_nonempty (p : positive) : pretty p ≠ "".
Proof.
  unfold pretty, pretty_positive, pretty, pretty_N.
  rewrite decide_False by done. rewrite pretty_N_go_step by lia.
  intros Hempty.
  pose proof (pretty_N_go_grows (N.pos p `div` 10)
                (String (pretty_N_char (N.pos p `mod` 10)) "")) as Hlen.
  rewrite Hempty in Hlen. simpl in Hlen. lia.
Qed.

Lemma classList_nonempty v : Forall (λ x, x ≠ "") (classList v).
Proof.
  destruct v as [| | |n|s|]; simpl; try done.
  - case_decide; [done|]. constructor; [|done].
    destruct n as [|p|p]; [done| |].
    + apply pretty_positive_nonempty.
    + discriminate.
  - case_decide; [done|]. by constructor.
Qed.

Lemma clsx_Some (args : list value) (cn : string) :
  clsx args = Some cn →
  cn = String.concat " " (concat (classList <$> args)).
Proof.
  unfold clsx. destruct (mapM clsx_arg args) as [parts|] eqn:Hparts; [|done].
  simpl. intros [= <-]. f_equal. f_equal.
  apply mapM_Some in Hparts.
  induction Hparts as [|v p args parts Hv _ IH]; [done|].
  simpl. rewrite IH. f_equal. by destruct v; simplify_eq/=.
Qed.

(** A class string that [clsx] has built counts, as an argument of a
    second [clsx], for the names it was built from. *)
Lemma concat_flatten L M :
  Forall (λ x, x ≠ "") L →
  String.concat " " (classList (VStr (String.concat " " L)) ++ M)
  = String.concat " " (L ++ M).
Proof.
  intros Hall. destruct L as [|x L]; [done|].
  cbn [classList]. rewrite decide_False by (by apply concat_nonempty).
  rewrite (concat_app _ (x :: L)), (concat_app _ [_]). by destruct M.
Qed.

Lemma clsx_is_Some (args : list value) :
  forallb (λ v, negb (is_object v)) args = true → is_Some (clsx args).
Proof.
  intros Hplain. unfold clsx.
  destruct (mapM_is_Some_2 clsx_arg args) as [parts ->]; [|by eexists].
  apply Forall_forall. intros v Hv.
  apply list_elem_of_In in Hv.
  apply (proj1 (forallb_forall _ _) Hplain) in Hv.
  destruct v; simpl in *; by eauto.
Qed.

End ClassNames.

(** ** The OwnerState Builder *)

Section OwnerState.

Implicit Types (l : Locals) (k : string).

Lemma buildOwnerState_lookup (resolvedProps internal : gmap string value) k :
  buildOwnerState resolvedProps internal !! k
  = match internal !! k with
    | Some v => Some v
    | None => resolvedProps !! k
    end.
Proof.
  unfold buildOwnerState. rewrite lookup_union.
  destruct (internal !! k), (resolvedProps !! k); reflexivity.
Qed.

Lemma ownerState_refines l :
  ownerState l = buildOwnerState (l_props l) (internalState l).
Proof.
  apply map_eq. intros k. rewrite buildOwnerState_lookup.
  unfold ownerState, internalState, list_to_map. cbn [foldr fst snd].
  destruct (decide (k = "orientation")) as [->|]; [by simplify_map_eq|].
  destruct (decide (k = "size")) as [->|]; [by simplify_map_eq|].
  destruct (decide (k = "required")) as [->|]; [by simplify_map_eq|].
  destruct (decide (k = "error")) as [->|]; [by simplify_map_eq|].
  destruct (decide (k = "disabled")) as [->|]; [by simplify_map_eq|].
  destruct (decide (k = "color")) as [->|]; [by simplify_map_eq|].
  destruct (decide (k = "component")) as [->|]; [by simplify_map_eq|].
  destruct (decide (k = "id")) as [->|]; by simplify_map_eq.
Qed.

(** C4. The ownerState that FormControl builds is the merge of the
    resolved props and its internal state (id, component, color, disabled,
    error, required, size, orientation) into one flat mapping: a key of the
    internal state has the internal value, whether or not the props have
    it too, and every other key has the value of the props. *)
Theorem buildOwnerState_internal_wins :
  ∀ (resolvedProps internal : gmap string value) (I : Imports)
    (inProps : gmap string value) (k : string),
    match internal !! k with
    | Some v => buildOwnerState resolvedProps internal !! k = Some v
    | None => buildOwnerState resolvedProps internal !! k = resolvedProps !! k
    end
    ∧ ownerState (locals I inProps)
      = buildOwnerState (l_props (locals I inProps))
          (internalState (locals I inProps)).
Proof.
  intros resolvedProps internal I inProps k. split.
  - rewrite buildOwnerState_lookup. by destruct (internal !! k).
  - apply ownerState_refines.
Qed.

End OwnerState.

(** ** The Theme Defaults Resolver *)

Section ThemeDefaults.

Implicit Types (theme : gmap string (gmap string value)).
Implicit Types (props defaults : gmap string value) (name k : string).

Lemma inject_idem (d p : option value) : inject d (inject d p) = inject d p.
Proof. destruct d as [[]|], p as [[]|]; reflexivity. Qed.

Lemma resolve_lookup theme name defaults props k :
  theme !! name = Some defaults →
  resolveThemeDefaults theme name props !! k
  = inject (defaults !! k) (props !! k).
Proof.
  intros Hreg. unfold resolveThemeDefaults. rewrite Hreg, lookup_merge.
  by destruct (defaults !! k), (props !! k).
Qed.

Lemma resolve_unregistered theme name props :
  theme !! name = None → resolveThemeDefaults theme name props = props.
Proof. intros Hno. unfold resolveThemeDefaults. by rewrite Hno. Qed.

(** An explicit value of the caller that is not [undefined] is kept,
    whatever the theme says: [false], [0] and the empty string too. *)
Lemma resolve_keeps_explicit theme name props k v :
  props !! k = Some v → v ≠ VUndefined →
  resolveThemeDefaults theme name props !! k = Some v.
Proof.
  intros Hk Hv. destruct (theme !! name) as [defaults|] eqn:Hreg.
  - rewrite (resolve_lookup _ _ defaults) by done. rewrite Hk.
    by destruct v, (defaults !! k).
  - by rewrite resolve_unregistered.
Qed.

(** C5. Resolving the theme defaults twice is resolving them once, for a
    registered and for an unregistered component name and for every bag of
    props: the second pass finds each key the first one filled and leaves
    the props as they are. *)
Theorem resolveThemeDefaults_idempotent :
  ∀ theme name props,
    resolveThemeDefaults theme name (resolveThemeDefaults theme name props)
    = resolveThemeDefaults theme name props.
Proof.
  intros theme name props.
  destruct (theme !! name) as [defaults|] eqn:Hreg.
  - apply map_eq. intros k.
    rewrite !(resolve_lookup _ _ defaults) by done. apply inject_idem.
  - by rewrite !resolve_unregistered.
Qed.

End ThemeDefaults.

(** ** Tokens *)

Section Tokens.

Implicit Types (l : list string) (keys : list value) (t x : string).

Lemma elem_of_dedup l x : x ∈ dedup l ↔ x ∈ l.
Proof.
  induction l as [|y l IH]; simpl; [done|].
  rewrite !elem_of_cons, list_elem_of_filter, IH.
  destruct (decide (x = y)); tauto.
Qed.

Lemma NoDup_dedup l : NoDup (dedup l).
Proof.
  induction l as [|y l IH]; simpl; constructor.
  - rewrite list_elem_of_filter. intros [Hne _]. by apply Hne.
  - by apply NoDup_filter.
Qed.

Lemma elem_of_tokens keys t :
  t ∈ tokens keys ↔ ∃ key, key ∈ keys ∧ truthy key = true ∧ to_str key = t.
Proof.
  unfold tokens. rewrite elem_of_dedup, list_elem_of_fmap.
  split.
  - intros (key & -> & Hin). apply list_elem_of_filter in Hin as [Ht Hin].
    by exists key.
  - intros (key & Hin & Ht & <-). exists key. split; [done|].
    by apply list_elem_of_filter.
Qed.

Lemma prefix_app (p s : string) : String.prefix p (p +:+ s) = true.
Proof.
  induction p as [|c p IH]; simpl; [by destruct s|].
  destruct (ascii_dec c c); [done|congruence].
Qed.

End Tokens.

(** ** The Utility Class Composer of FormControl *)

Section UtilityClasses.

Implicit Types (os : gmap string value) (v : value) (t : string).

Lemma and_template_inv v (dimension : string) (c : value) :
  and_template v dimension = Some c →
  (∃ s, v = VStr s ∧ s ≠ "" ∧ c = VStr (dimension +:+ capitalize s))
  ∨ (truthy v = false ∧ c = v).
Proof.
  unfold and_template. destruct (truthy v) eqn:Htruthy.
  - destruct v; simpl; try discriminate. intros [= <-]. left.
    eexists. split; [done|]. split; [|done]. by apply truthy_str.
  - intros [= <-]. by right.
Qed.

Lemma and_template_typed v (dimension : string) :
  nullish v || is_string v = true → is_Some (and_template v dimension).
Proof.
  unfold and_template. destruct v; simpl; try discriminate; eauto.
  destruct (negb _); eauto.
Qed.

Lemma oneOf_inv (l : list string) v :
  oneOf l v = true → ∃ s, v = VStr s ∧ s ∈ l.
Proof.
  destruct v; simpl; try discriminate. intros Hin%bool_decide_eq_true. eauto.
Qed.

(** What the validators of [propTypes] say about the five props that
    [useUtilityClasses] reads. *)
Lemma checkPropTypes_styling os :
  checkPropTypes os = true →
  (nullish (get os "disabled") || is_bool (get os "disabled") = true)
  ∧ (nullish (get os "error") || is_bool (get os "error") = true)
  ∧ (nullish (get os "color") || is_string (get os "color") = true)
  ∧ (nullish (get os "size") || is_string (get os "size") = true)
  ∧ (nullish (get os "orientation") = true
     ∨ get os "orientation" = VStr "horizontal"
     ∨ get os "orientation" = VStr "vertical").
Proof.
  unfold checkPropTypes, propTypes. cbn [forallb fst snd].
  rewrite !andb_true_iff.
  intros (_ & _ & Hcolor & _ & Hdisabled & Herror & _ & Horientation & _
          & Hsize & _).
  repeat split; try done.
  - destruct (get os "color"); simpl in *; try done.
  - destruct (get os "size"); simpl in *; try done.
  - apply orb_true_iff in Horientation as [Hn|Hone]; [by left|right].
    apply oneOf_inv in Hone as (s & -> & Hin).
    rewrite !elem_of_cons in Hin.
    destruct Hin as [->|[->|Hin]]; [by left|by right|by apply elem_of_nil in Hin].
Qed.

Lemma rootTokens_typed os :
  checkPropTypes os = true → is_Some (rootTokens os).
Proof.
  intros (_ & _ & Hcolor & Hsize & _)%checkPropTypes_styling.
  unfold rootTokens, rootSlot.
  destruct (and_template_typed _ "color" Hcolor) as [c ->].
  destruct (and_template_typed _ "size" Hsize) as [s ->].
  simpl. eauto.
Qed.

(** The tokens of the root slot, one entry of the array at a time. *)
Lemma elem_of_rootTokens os (toks : list string) t :
  rootTokens os = Some toks →
  t ∈ toks ↔
    t = "root"
    ∨ (truthy (get os "orientation") = true ∧ t = to_str (get os "orientation"))
    ∨ (truthy (get os "disabled") = true ∧ t = "disabled")
    ∨ (truthy (get os "error") = true ∧ t = "error")
    ∨ (∃ c, get os "color" = VStr c ∧ c ≠ "" ∧ t = "color" +:+ capitalize c)
    ∨ (∃ s, get os "size" = VStr s ∧ s ≠ "" ∧ t = "size" +:+ capitalize s).
Proof.
  unfold rootTokens, rootSlot.
  destruct (and_template (get os "color") "color") as [c|] eqn:Hc;
    [|discriminate].
  destruct (and_template (get os "size") "size") as [s|] eqn:Hs;
    [|discriminate].
  simpl. intros [= <-]. rewrite elem_of_tokens.
  apply and_template_inv in Hc, Hs. unfold and_.
  split.
  - intros (key & Hin & Htruthy & <-).
    rewrite !elem_of_cons in Hin.
    destruct Hin as [->|[->|[->|[->|[->|[->|Hin]]]]]].
    + by left.
    + right; left. done.
    + right; right; left.
      destruct (truthy (get os "disabled")) eqn:Hd; [done|congruence].
    + right; right; right; left.
      destruct (truthy (get os "error")) eqn:He; [done|congruence].
    + right; right; right; right; left.
      destruct Hc as [(c' & Hv & Hne & ->)|[Hf ->]]; [eauto|congruence].
    + right; right; right; right; right.
      destruct Hs as [(s' & Hv & Hne & ->)|[Hf ->]]; [eauto|congruence].
    + by apply elem_of_nil in Hin.
  - intros [->|[[Ho ->]|[[Hd ->]|[[He ->]|[(c' & Hv & Hne & ->)|(s' & Hv & Hne & ->)]]]]].
    + exists (VStr "root"). rewrite elem_of_cons. auto.
    + exists (get os "orientation"). rewrite !elem_of_cons. auto.
    + exists (VStr "disabled"). rewrite Hd, !elem_of_cons. auto 6.
    + exists (VStr "error"). rewrite He, !elem_of_cons. auto 7.
    + exists (VStr ("color" +:+ capitalize c')).
      destruct Hc as [(c'' & Hv' & _ & ->)|[Hf _]].
      * rewrite Hv in Hv'. injection Hv' as <-. rewrite !elem_of_cons. auto 8.
      * rewrite Hv in Hf. apply truthy_str in Hne. congruence.
    + exists (VStr ("size" +:+ capitalize s')).
      destruct Hs as [(s'' & Hv' & _ & ->)|[Hf _]].
      * rewrite Hv in Hv'. injection Hv' as <-. rewrite !elem_of_cons. auto 9.
      * rewrite Hv in Hf. apply truthy_str in Hne. congruence.
Qed.

Ltac typed_value H :=
  match type of H with
  | nullish ?v || _ = true =>
      let Hv := fresh "Hv" in
      destruct v eqn:Hv; simpl in H; try discriminate H
  end.

(** C1, as the code has it. For an ownerState that passes the validators
    of the component: the boolean dimensions disabled and error put their
    literal token into the token set of the root slot exactly when they are
    true; color and size put the dimension name followed by the capitalized
    value exactly when the value is a non-empty string, and no token of
    that dimension otherwise; orientation puts its value itself
    ([horizontal], [vertical]), not a token that starts with the dimension
    name, exactly when it is defined. *)
Theorem useUtilityClasses_tokens :
  ∀ os, checkPropTypes os = true →
    ∃ toks, rootTokens os = Some toks
      ∧ ("disabled" ∈ toks ↔ get os "disabled" = VBool true)
      ∧ ("error" ∈ toks ↔ get os "error" = VBool true)
      ∧ (∀ t, t ∈ toks ∧ String.prefix "color" t = true
              ↔ ∃ c, get os "color" = VStr c ∧ c ≠ ""
                     ∧ t = "color" +:+ capitalize c)
      ∧ (∀ t, t ∈ toks ∧ String.prefix "size" t = true
              ↔ ∃ s, get os "size" = VStr s ∧ s ≠ ""
                     ∧ t = "size" +:+ capitalize s)
      ∧ (∀ t, t ∈ toks ∧ t ∈ ["horizontal"; "vertical"]
              ↔ get os "orientation" = VStr t)
      ∧ (∀ t, t ∈ toks → String.prefix "orientation" t = false).
Proof.
  intros os Htyped.
  destruct (rootTokens_typed os Htyped) as [toks Htoks].
  exists toks. split; [done|].
  pose proof (λ t, elem_of_rootTokens os toks t Htoks) as Hin.
  apply checkPropTypes_styling in Htyped
    as (Hdisabled & Herror & _ & _ & Horientation).
  assert (∀ t, truthy (get os "orientation") = true →
               t = to_str (get os "orientation") →
               get os "orientation" = VStr t ∧ t ∈ ["horizontal"; "vertical"])
    as Hor.
  { intros t Ho ->. destruct Horientation as [Hn|[->| ->]].
    - destruct (get os "orientation"); simpl in *; discriminate.
    - split; [done|]. rewrite !elem_of_cons. auto.
    - split; [done|]. rewrite !elem_of_cons. auto. }
  assert (∀ t, t ∈ ["horizontal"; "vertical"] →
               t = "horizontal" ∨ t = "vertical") as Hhv.
  { intros t Hl. rewrite !elem_of_cons in Hl.
    destruct Hl as [?|[?|Hl]]; [by left|by right|by apply elem_of_nil in Hl]. }
  split_and!.
  - split.
    + intros [?|[[Ho Ht]|[[Hd _]|[[_ ?]|[(c & _ & _ & ?)|(s & _ & _ & ?)]]]]]%Hin;
        try discriminate.
      * destruct (Hor _ Ho Ht) as [_ [?|?]%Hhv]; discriminate.
      * typed_value Hdisabled; simpl in Hd; first [discriminate|by subst].
    + intros Hd. apply Hin. right; right; left. by rewrite Hd.
  - split.
    + intros [?|[[Ho Ht]|[[_ ?]|[[He _]|[(c & _ & _ & ?)|(s & _ & _ & ?)]]]]]%Hin;
        try discriminate.
      * destruct (Hor _ Ho Ht) as [_ [?|?]%Hhv]; discriminate.
      * typed_value Herror; simpl in He; first [discriminate|by subst].
    + intros He. apply Hin. right; right; right; left. by rewrite He.
  - intros t. split.
    + intros [[->|[[Ho Ht]|[[_ ->]|[[_ ->]|[Hc|(s & _ & _ & ->)]]]]]%Hin Hp];
        try discriminate; [|done].
      destruct (Hor _ Ho Ht) as [_ [-> | ->]%Hhv]; discriminate.
    + intros Hc. split; [apply Hin; auto 7|].
      destruct Hc as (c & _ & _ & ->). apply prefix_app.
  - intros t. split.
    + intros [[->|[[Ho Ht]|[[_ ->]|[[_ ->]|[(c & _ & _ & ->)|Hs]]]]]%Hin Hp];
        try discriminate; [|done].
      destruct (Hor _ Ho Ht) as [_ [-> | ->]%Hhv]; discriminate.
    + intros Hs. split; [apply Hin; auto 7|].
      destruct Hs as (s & _ & _ & ->). apply prefix_app.
  - intros t. split.
    + intros [[->|[[Ho Ht]|[[_ ->]|[[_ ->]|[(c & _ & _ & ->)|(s & _ & _ & ->)]]]]]%Hin
               [?|?]%Hhv]; try discriminate; by destruct (Hor _ Ho Ht).
    + intros Ho.
      assert (t ∈ ["horizontal"; "vertical"]) as Hl.
      { destruct Horientation as [Hn|[Hv|Hv]]; rewrite Ho in *; simpl in *;
          try discriminate; injection Hv as ->; rewrite !elem_of_cons; auto. }
      split; [|done]. apply Hin. right; left. rewrite Ho. split; [|done].
      by apply Hhv in Hl as [-> | ->].
  - intros t [->|[[Ho Ht]|[[_ ->]|[[_ ->]|[(c & _ & _ & ->)|(s & _ & _ & ->)]]]]]%Hin;
      try reflexivity.
    by destruct (Hor _ Ho Ht) as [_ [-> | ->]%Hhv].
Qed.

(** C2. An ownerState with orientation [horizontal], size [sm] and no
    color: the token set of the root slot has [horizontal] and [sizeSm],
    and no token of the form colorX. *)
Theorem horizontal_sm_no_color :
  ∀ os,
    get os "orientation" = VStr "horizontal" →
    get os "size" = VStr "sm" →
    get os "color" = VUndefined →
    ∃ toks, rootTokens os = Some toks
      ∧ "horizontal" ∈ toks
      ∧ "sizeSm" ∈ toks
      ∧ ∀ t, t ∈ toks → String.prefix "color" t = false.
Proof.
  intros os Ho Hs Hc.
  assert (is_Some (rootTokens os)) as [toks Htoks].
  { unfold rootTokens, rootSlot. rewrite Hc, Hs. simpl. eauto. }
  exists toks. split; [done|].
  pose proof (λ t, elem_of_rootTokens os toks t Htoks) as Hin.
  rewrite Ho, Hs, Hc in Hin. split_and!.
  - apply Hin. right; left. done.
  - apply Hin. do 5 right. by exists "sm".
  - intros t [->|[[_ ->]|[[_ ->]|[[_ ->]|[(c & ? & _)|(s & [= <-] & _ & ->)]]]]]%Hin;
      try reflexivity. discriminate.
Qed.

End UtilityClasses.

(** ** Scenarios of the composer *)

Section Scenarios.

Example rootTokens_scenarioFull :
  rootTokens scenarioFull
  = Some ["root"; "vertical"; "disabled"; "colorPrimary"; "sizeLg"].
Proof. vm_compute. reflexivity. Qed.

Lemma useUtilityClasses_tokens_witness :
  checkPropTypes scenarioFull = true
  ∧ ∃ toks, rootTokens scenarioFull = Some toks
      ∧ "disabled" ∈ toks ∧ ("error" ∉ toks)
      ∧ "colorPrimary" ∈ toks ∧ "sizeLg" ∈ toks ∧ "vertical" ∈ toks.
Proof.
  assert (checkPropTypes scenarioFull = true) as Htyped
    by (vm_compute; reflexivity).
  split; [exact Htyped|].
  destruct (useUtilityClasses_tokens scenarioFull Htyped)
    as (toks & Htoks & Hd & He & Hc & Hs & Ho & _).
  exists toks. split; [exact Htoks|]. split_and!.
  - apply Hd. vm_compute. reflexivity.
  - intros Hin%He. vm_compute in Hin. discriminate.
  - apply (Hc "colorPrimary"). exists "primary". by vm_compute.
  - apply (Hs "sizeLg"). exists "lg". by vm_compute.
  - apply (Ho "vertical"). vm_compute. reflexivity.
Defined.

(** C1 as it is stated fails for orientation: with orientation defined and
    non-empty, the token set holds the value [horizontal] itself and no
    token made of the dimension name and the capitalized value. *)
Lemma orientation_token_counterexample :
  checkPropTypes scenarioHorizontal = true
  ∧ get scenarioHorizontal "orientation" = VStr "horizontal"
  ∧ rootTokens scenarioHorizontal = Some ["root"; "horizontal"; "sizeSm"]
  ∧ "orientation" +:+ capitalize "horizontal" = "orientationHorizontal"
  ∧ ("orientationHorizontal" ∉ ["root"; "horizontal"; "sizeSm"]).
Proof.
  split_and!; try (vm_compute; reflexivity).
  rewrite !elem_of_cons. intros [?|[?|[?|Hin]]]; try discriminate.
  by apply elem_of_nil in Hin.
Qed.

Lemma horizontal_sm_no_color_witness :
  ∃ toks, rootTokens scenarioHorizontal = Some toks
    ∧ "horizontal" ∈ toks
    ∧ "sizeSm" ∈ toks
    ∧ ∀ t, t ∈ toks → String.prefix "color" t = false.
Proof.
  apply (horizontal_sm_no_color scenarioHorizontal); vm_compute; reflexivity.
Defined.

End Scenarios.

(** ** The defaults of the destructuring *)

Section Defaults.

Context (I : Imports).
Implicit Types (inProps : gmap string value) (l : Locals).

Lemma get_ownerState l :
  get (ownerState l) "id" = l_id l
  ∧ get (ownerState l) "component" = l_component l
  ∧ get (ownerState l) "color" = l_color l
  ∧ get (ownerState l) "disabled" = l_disabled l
  ∧ get (ownerState l) "error" = l_error l
  ∧ get (ownerState l) "required" = l_required l
  ∧ get (ownerState l) "size" = l_size l
  ∧ get (ownerState l) "orientation" = l_orientation l.
Proof.
  unfold ownerState, get. split_and!;
    by rewrite ?lookup_insert_ne, lookup_insert_eq by done.
Qed.

Lemma locals_defaults inProps :
  let l := locals I inProps in
  l_color l = get (l_props l) "color"
  ∧ l_disabled l = dflt (VBool false) (get (l_props l) "disabled")
  ∧ l_error l = dflt (VBool false) (get (l_props l) "error")
  ∧ l_required l = dflt (VBool false) (get (l_props l) "required")
  ∧ l_size l = dflt (VStr "md") (get (l_props l) "size")
  ∧ l_orientation l = dflt (VStr "vertical") (get (l_props l) "orientation").
Proof. by split_and!. Qed.

(** C9. When the resolved props have no size (missing or [undefined], the
    theme supplying none), the ownerState has size [md] and the token set
    of the root slot has [sizeMd], whereas an omitted color gives no color
    token; likewise an omitted orientation is [vertical], and omitted
    disabled, error and required are [false]. *)
Theorem omitted_size_is_md :
  ∀ inProps,
    checkPropTypes (l_props (locals I inProps)) = true →
    get (l_props (locals I inProps)) "size" = VUndefined →
    let os := ownerState (locals I inProps) in
    let props := l_props (locals I inProps) in
    get os "size" = VStr "md"
    ∧ (∃ toks, rootTokens os = Some toks
         ∧ "sizeMd" ∈ toks
         ∧ (get props "color" = VUndefined →
            ∀ t, t ∈ toks → String.prefix "color" t = false))
    ∧ (get props "orientation" = VUndefined →
       get os "orientation" = VStr "vertical")
    ∧ (get props "disabled" = VUndefined → get os "disabled" = VBool false)
    ∧ (get props "error" = VUndefined → get os "error" = VBool false)
    ∧ (get props "required" = VUndefined → get os "required" = VBool false).
Proof.
  intros inProps. set (l := locals I inProps). intros Htyped Hsize os props.
  destruct (get_ownerState l) as (_ & _ & Hc & Hd & He & Hr & Hs & Ho).
  destruct (locals_defaults inProps) as (Hlc & Hld & Hle & Hlr & Hls & Hlo).
  fold l in Hlc, Hld, Hle, Hlr, Hls, Hlo.
  rewrite Hlc in Hc. rewrite Hld in Hd. rewrite Hle in He. rewrite Hlr in Hr.
  rewrite Hls in Hs. rewrite Hlo in Ho.
  fold os in Hc, Hd, He, Hr, Hs, Ho. fold props in Hc, Hd, He, Hr, Hs, Ho, Hsize.
  assert (get os "size" = VStr "md") as Hmd by (by rewrite Hs, Hsize).
  apply checkPropTypes_styling in Htyped as (_ & _ & Hcolor & _ & Horientation).
  fold props in Hcolor, Horientation. rewrite <- Hc in Hcolor.
  assert (is_Some (rootTokens os)) as [toks Htoks].
  { unfold rootTokens, rootSlot. rewrite Hmd.
    destruct (and_template_typed _ "color" Hcolor) as [c ->]. simpl. eauto. }
  pose proof (λ t, elem_of_rootTokens os toks t Htoks) as Hin.
  split_and!.
  - done.
  - exists toks. split_and!; [done| |].
    + apply Hin. do 5 right. exists "md". by rewrite Hmd.
    + intros Hnone t. rewrite Hc, Hnone, Hmd, Ho in Hin.
      intros [->|[[Hot ->]|[[_ ->]|[[_ ->]|[(c & ? & _)|(s & [= <-] & _ & ->)]]]]]%Hin;
        try reflexivity; [|discriminate].
      destruct Horientation as [Hn|[-> | ->]]; try reflexivity.
      by destruct (get props "orientation").
  - intros Hnone. by rewrite Ho, Hnone.
  - intros Hnone. by rewrite Hd, Hnone.
  - intros Hnone. by rewrite He, Hnone.
  - intros Hnone. by rewrite Hr, Hnone.
Qed.

End Defaults.

Section DefaultsScenario.

Lemma omitted_size_is_md_witness :
  get (ownerState (locals development scenarioHorizontal)) "size" = VStr "sm"
  ∧ get (ownerState (locals development ∅)) "size" = VStr "md"
  ∧ get (ownerState (locals development ∅)) "orientation" = VStr "vertical".
Proof.
  split; [vm_compute; reflexivity|].
  assert (checkPropTypes (l_props (locals development ∅)) = true) as Htyped
    by (vm_compute; reflexivity).
  assert (get (l_props (locals development ∅)) "size" = VUndefined) as Hsize
    by (vm_compute; reflexivity).
  destruct (omitted_size_is_md development ∅ Htyped Hsize)
    as (Hmd & _ & Hvertical & _).
  split; [exact Hmd|]. apply Hvertical. vm_compute. reflexivity.
Defined.

End DefaultsScenario.

(** ** The Slot Resolver *)

Section SlotResolver.

Context (styleVariables : gmap string value → gmap string value).
Implicit Types (ov : Overrides) (c : Component) (config : SlotConfig).
Implicit Types (name k : string) (r : Resolved).

Lemma resolveSlot_other ov name k target props config :
  k ≠ name →
  resolveSlot styleVariables (overriding ov k target props) name config
  = resolveSlot styleVariables ov name config.
Proof.
  intros Hne. unfold resolveSlot, overriding. simpl.
  by rewrite !lookup_insert_ne.
Qed.

Lemma resolveSlot_returns ov name config :
  plainClassNames ov name config = true →
  is_Some (resolveSlot styleVariables ov name config).
Proof.
  intros Hplain. unfold resolveSlot.
  destruct (clsx_is_Some _ Hplain) as [cn ->]. by eexists.
Qed.

Lemma renderTarget_resolved ov name config r :
  resolveSlot styleVariables ov name config = Some r →
  renderTarget r
  = match targets ov !! name with
    | Some target => target
    | None => elementType config
    end.
Proof.
  unfold resolveSlot. destruct (clsx _); [|discriminate].
  intros [= <-]. simpl. by destruct (targets ov !! name).
Qed.

(** C7. A slot whose class names are no objects resolves, and its render
    target is the caller's override for that exact slot name when the
    caller gave one, and the declared target of the slot otherwise; an
    override for a name that is not a slot of the component changes no
    resolved slot. *)
Theorem renderTarget_override :
  ∀ ov name config,
    plainClassNames ov name config = true →
    ∃ r,
      resolveSlot styleVariables ov name config = Some r
      ∧ renderTarget r
        = match targets ov !! name with
          | Some target => target
          | None => elementType config
          end
      ∧ (∀ k target props, k ≠ name →
           resolveSlot styleVariables (overriding ov k target props) name config
           = Some r)
      ∧ (∀ c configOf forwarded k target props, k ∉ slots c →
           resolveSlots styleVariables (overriding ov k target props) c
             configOf forwarded
           = resolveSlots styleVariables ov c configOf forwarded).
Proof.
  intros ov name config Hplain.
  destruct (resolveSlot_returns _ _ _ Hplain) as [r Hr].
  exists r. split_and!.
  - done.
  - by apply renderTarget_resolved.
  - intros k target props Hne. by rewrite resolveSlot_other.
  - intros c configOf forwarded k target props Hk. unfold resolveSlots.
    apply Forall_mapM_ext, Forall_forall. intros slotName Hin.
    apply resolveSlot_other. by intros ->.
Qed.



End SlotResolver.

(** ** A render returns *)

Section Render.

Context (I : Imports).
Implicit Types (inst : Instance) (inProps props : gmap string value).

Lemma forwarded_className props (component : value) :
  get (<["component" := component]> (rest props)) "className" = VUndefined.
Proof.
  unfold get, rest, destructured. cbn [foldr].
  rewrite lookup_insert_ne by done. rewrite lookup_delete_ne by done.
  by rewrite lookup_delete_eq.
Qed.

Lemma checkPropTypes_className props :
  checkPropTypes props = true → is_object (get props "className") = false.
Proof.
  unfold checkPropTypes, propTypes. cbn [forallb fst snd].
  rewrite !andb_true_iff. intros (_ & Hclass & _).
  by destruct (get props "className").
Qed.

Lemma get_composeClasses_root (root : list value) :
  is_object
    (get (composeClasses {[ "root" := root ]} (getFormControlUtilityClass I) ∅)
         "root") = false.
Proof.
  unfold composeClasses, get.
  by rewrite map_fmap_singleton, lookup_singleton_eq.
Qed.

(** With props that pass the validators, and no class name given as an
    object in the caller's override props, a render does not throw. *)
Lemma FormControl_returns inProps (ref : value) inst :
  checkPropTypes (l_props (locals I inProps)) = true →
  is_object (get (rootOverrideProps I (locals I inProps)) "className") = false →
  is_Some (FormControl I inProps ref inst).
Proof.
  intros Htyped Hoverride. unfold FormControl.
  assert (l_other (locals I inProps) = rest (l_props (locals I inProps)))
    as Hother by reflexivity.
  destruct (get_ownerState (locals I inProps))
    as (_ & _ & Hc & _ & _ & _ & Hs & _).
  destruct (locals_defaults I inProps) as (Hlc & _ & _ & _ & Hls & _).
  cbv zeta in Hlc, Hls. rewrite Hlc in Hc. rewrite Hls in Hs.
  pose proof (checkPropTypes_className _ Htyped) as Hclass.
  apply checkPropTypes_styling in Htyped as (_ & _ & Hcolor & Hsize & _).
  assert (l_className (locals I inProps)
          = get (l_props (locals I inProps)) "className") as Hlclass
    by reflexivity.
  remember (locals I inProps) as l eqn:Hl. clear Hl.
  assert (is_Some (rootSlot (ownerState l))) as [root Hroot].
  { unfold rootSlot. rewrite Hc, Hs.
    destruct (and_template_typed _ "color" Hcolor) as [c ->].
    destruct (and_template_typed (dflt (VStr "md") (get (l_props l) "size"))
                "size") as [s ->]; [|by eexists].
    by destruct (get (l_props l) "size"). }
  unfold useUtilityClasses. rewrite Hroot. cbn [mbind option_bind].
  unfold rootParameters.
  destruct (clsx_is_Some
              [get (composeClasses {[ "root" := root ]}
                      (getFormControlUtilityClass I) ∅) "root";
               l_className l]) as [cn ->].
  { cbn [forallb]. rewrite get_composeClasses_root, Hlclass, Hclass. done. }
  cbn [mbind option_bind]. unfold useSlot.
  destruct (resolveSlot_returns (styleVariables I)
              (callerOverrides I (<["component" := l_component l]> (l_other l)))
              "root"
              {| Slot.ref := Some ref;
                 Slot.className := VStr cn;
                 elementType := FormControlRoot I;
                 externalForwardedProps :=
                   <["component" := l_component l]> (l_other l);
                 Slot.ownerState := ownerState l;
                 additionalProps := ∅ |}) as [slot Hslot].
  { unfold plainClassNames.
    cbn [forallb Slot.className externalForwardedProps].
    fold (rootOverrideProps I l).
    rewrite Hother, forwarded_className, Hoverride. done. }
  cbn [externalForwardedProps]. rewrite Hslot. by eexists.
Qed.



End Render.

(** ** The registration flag *)

Section Registration.

Context (I : Imports).
Implicit Types (inst : Instance) (inProps : gmap string value) (ref : value).

(** A render reads the [helperText] state, the setter, the memo cell and
    the closure counter of the instance, and neither the registration flag
    nor the console. *)
Lemma FormControl_reads inst inst' inProps ref :
  helperText inst' = helperText inst →
  setHelperText inst' = setHelperText inst →
  memo inst' = memo inst →
  nextClosure inst' = nextClosure inst →
  fst <$> FormControl I inProps ref inst' = fst <$> FormControl I inProps ref inst.
Proof.
  intros Hh Hs Hm Hn.
  unfold FormControl, registerEffectValue, contextValue, dependencies,
    helperTextValue.
  rewrite Hh, Hs, Hm, Hn.
  destruct (useUtilityClasses _ _) as [classes|]; [|done]. cbn [mbind option_bind].
  destruct (rootParameters _ _ _ _) as [parameters|]; [|done].
  cbn [mbind option_bind].
  by destruct (useSlot _ _ _).
Qed.

Lemma registerEffect_run inst :
  registerEffect inst
  = (Returned (writeRegisteredInput false),
     {| registeredInput := true;
        helperText := helperText inst;
        setHelperText := setHelperText inst;
        memo := memo inst;
        nextClosure := nextClosure inst;
        console := (console inst
                    ++ (if registeredInput inst then [misuseMessage] else []))%list
     |}).
Proof.
  unfold registerEffect, bind, readRegisteredInput. simpl.
  destruct (registeredInput inst); simpl; [done|].
  by rewrite app_nil_r.
Qed.

(** C8. Outside a production build [registerEffect] exists and, called on
    any instance, returns its cleanup without throwing; it sets the
    registration flag, and prints the diagnostic exactly when a
    registration was still in place; the next render is what it would have
    been without the call. The cleanup returns without throwing and resets
    the flag, printing nothing, and a registration that follows it prints
    no diagnostic. *)
Theorem registerEffect_advisory :
  ∀ inst,
    NODE_ENV I ≠ "production" →
    ∃ f cleanup inst1,
      registerEffectOf I = Some f
      ∧ f inst = (Returned cleanup, inst1)
      ∧ registeredInput inst1 = true
      ∧ console inst1
        = (console inst
           ++ (if registeredInput inst then [misuseMessage] else []))%list
      ∧ (∀ inProps ref,
           fst <$> FormControl I inProps ref inst1
           = fst <$> FormControl I inProps ref inst)
      ∧ (∀ j, ∃ j', cleanup j = (Returned tt, j')
                    ∧ registeredInput j' = false
                    ∧ console j' = console j)
      ∧ (∃ inst2 cleanup' inst3,
           cleanup inst1 = (Returned tt, inst2)
           ∧ f inst2 = (Returned cleanup', inst3)
           ∧ registeredInput inst3 = true
           ∧ console inst3 = console inst1).
Proof.
  intros inst Hmode. unfold registerEffectOf.
  rewrite decide_True by done.
  eexists _, _, _. split; [reflexivity|].
  split; [apply registerEffect_run|]. split_and!.
  - reflexivity.
  - reflexivity.
  - intros inProps ref. by apply FormControl_reads.
  - intros j. eexists. split; [reflexivity|]. by split.
  - eexists _, _, _. split; [reflexivity|].
    split; [apply registerEffect_run|]. split; [reflexivity|].
    simpl. by rewrite app_nil_r.
Qed.

End Registration.

(** ** The context value *)

Section Context.

Context (I : Imports).
Implicit Types (inst : Instance) (inProps : gmap string value) (ref : value).
Implicit Types (l : Locals).

(** The context value is a function of the dependency array and of the
    setter, which never changes. *)
Lemma contextValue_dependencies l1 l2 inst1 inst2 (r1 r2 : value) :
  setHelperText inst1 = setHelperText inst2 →
  dependencies l1 inst1 r1 = dependencies l2 inst2 r2 →
  contextValue l1 inst1 r1 = contextValue l2 inst2 r2.
Proof.
  unfold dependencies, contextValue.
  intros -> [= -> -> -> -> -> -> -> ->]. reflexivity.
Qed.

Lemma useMemo_fresh inst l (registerEffect : value) :
  memoSound inst →
  useMemo (memo inst) (contextValue l inst registerEffect)
    (dependencies l inst registerEffect)
  = contextValue l inst registerEffect.
Proof.
  unfold memoSound, useMemo. destruct (memo inst) as [[deps v]|]; [|done].
  intros (l0 & i0 & r0 & Hset & Hdeps & ->).
  case_decide as Heq; [|done]. subst deps.
  by apply contextValue_dependencies.
Qed.

Lemma FormControl_context inst inProps ref (out : Rendered) inst' :
  memoSound inst →
  FormControl I inProps ref inst = Some (out, inst') →
  formControlContextValue out
  = contextValue (locals I inProps) inst (registerEffectValue I inst)
  ∧ memoSound inst'.
Proof.
  intros Hsound. unfold FormControl.
  destruct (useUtilityClasses _ _) as [classes|]; [|done]. cbn [mbind option_bind].
  destruct (rootParameters _ _ _ _) as [parameters|]; [|done].
  cbn [mbind option_bind].
  destruct (useSlot _ _ _) as [slot|]; [|done]. cbn [mbind option_bind].
  rewrite useMemo_fresh by done. intros [= <- <-]. split; [done|].
  unfold memoSound. cbn [memo setHelperText].
  by exists (locals I inProps), inst, (registerEffectValue I inst).
Qed.

Lemma handle_memoSound inst (e : Event) :
  memoSound inst → memoSound (handle I inst e).
Proof.
  intros Hsound. destruct e as [inProps ref|element| |]; simpl.
  - destruct (FormControl I inProps ref inst) as [[out inst']|] eqn:Hrender;
      [|done].
    by destruct (FormControl_context _ _ _ _ _ Hsound Hrender).
  - done.
  - destruct (registerEffectOf I) as [f|] eqn:Hf; [|done].
    unfold registerEffectOf in Hf. case_decide; [|done].
    injection Hf as <-. by rewrite registerEffect_run.
  - by destruct (registerEffectOf I).
Qed.

Lemma run_memoSound (events : list Event) inst :
  memoSound inst → memoSound (run I events inst).
Proof.
  revert inst. induction events as [|e events IH]; intros inst Hsound; [done|].
  apply IH. by apply handle_memoSound.
Qed.

(** C10. Every render of a mounted instance with props that pass the
    validators, whatever renders and calls of the children came before,
    returns, and the context value it provides has [aria-describedby]
    equal to the id followed by [-helper-text] exactly when a helper-text
    element is registered, and [undefined] otherwise; [labelId] is the id
    followed by [-label], and [htmlFor] is the resolved id. *)
Theorem context_ids :
  ∀ (events : list Event) (first : positive) inProps ref,
    let inst := run I events (mount first) in
    let id := useId I (get (useThemeProps I inProps componentName) "id") in
    checkPropTypes (l_props (locals I inProps)) = true →
    is_object (get (rootOverrideProps I (locals I inProps)) "className") = false →
    ∃ (out : Rendered) inst',
      FormControl I inProps ref inst = Some (out, inst')
      ∧ get (formControlContextValue out) "aria-describedby"
        = match helperText inst with
          | Some _ => VStr (to_str id +:+ "-helper-text")
          | None => VUndefined
          end
      ∧ (get (formControlContextValue out) "aria-describedby"
         = VStr (to_str id +:+ "-helper-text")
         ↔ helperText inst ≠ None)
      ∧ get (formControlContextValue out) "labelId"
        = VStr (to_str id +:+ "-label")
      ∧ get (formControlContextValue out) "htmlFor" = id.
Proof.
  intros events first inProps ref inst id Htyped Hoverride.
  destruct (FormControl_returns I inProps ref inst Htyped Hoverride)
    as [[out inst'] Hrender].
  exists out, inst'. split; [done|].
  assert (memoSound inst) as Hsound by (by apply run_memoSound).
  destruct (FormControl_context _ _ _ _ _ Hsound Hrender) as [Hctx _].
  rewrite Hctx.
  assert (get (contextValue (locals I inProps) inst (registerEffectValue I inst))
            "aria-describedby"
          = match helperText inst with
            | Some _ => VStr (to_str id +:+ "-helper-text")
            | None => VUndefined
            end) as Haria.
  { unfold contextValue, helperTextValue. by destruct (helperText inst). }
  split_and!.
  - exact Haria.
  - rewrite Haria. by destruct (helperText inst).
  - reflexivity.
  - reflexivity.
Qed.

End Context.


Section RootClassName.

Context (I : Imports).
Implicit Types (inst : Instance) (inProps props : gmap string value).

Lemma className_rendered inProps (ref : value) inst (out : Rendered) inst' :
  FormControl I inProps ref inst = Some (out, inst') →
  ∃ classes,
    useUtilityClasses I (ownerState (locals I inProps)) = Some classes
    ∧ get (rootProps out) "className"
      = VStr (String.concat " "
                (classList (get classes "root")
                 ++ classList (l_className (locals I inProps))
                 ++ classList (get (rootOverrideProps I (locals I inProps))
                                   "className"))).
Proof.
  unfold FormControl.
  assert (l_other (locals I inProps) = rest (l_props (locals I inProps)))
    as Hother by reflexivity.
  remember (locals I inProps) as l eqn:Hl. clear Hl.
  destruct (useUtilityClasses I (ownerState l)) as [classes|]; [|done].
  cbn [mbind option_bind].
  destruct (rootParameters I l ref classes) as [parameters|] eqn:Hparameters;
    [|done].
  cbn [mbind option_bind].
  destruct (useSlot I "root" parameters) as [slot|] eqn:Hslot; [|done].
  cbn [mbind option_bind]. intros [= <- _]. exists classes. split; [done|].
  cbn [rootProps].
  unfold rootParameters in Hparameters.
  destruct (clsx [get classes "root"; l_className l]) as [cn|] eqn:Hcn;
    [|done].
  injection Hparameters as <-. apply clsx_Some in Hcn.
  unfold useSlot, resolveSlot in Hslot.
  cbn [Slot.className externalForwardedProps] in Hslot.
  fold (rootOverrideProps I l) in Hslot.
  destruct (clsx _) as [cn'|] eqn:Hcn'; [|done].
  injection Hslot as <-. apply clsx_Some in Hcn'.
  cbn [finalProps]. rewrite get_insert_eq. f_equal.
  rewrite Hcn', Hcn. cbn [fmap list_fmap concat].
  rewrite Hother, forwarded_className. cbn [classList].
  rewrite !app_nil_r, app_nil_l.
  rewrite (app_assoc (classList (get classes "root"))).
  apply concat_flatten.
  apply Forall_app. split; apply classList_nonempty.
Qed.

(** C3. A render with props that pass the validators returns, and the
    class name of the resolved root slot is made of the class names that
    the composer computed, followed by the names of the caller's
    [className], followed by those of the caller's override props for the
    slot, one space between two names: the caller's names are added after
    the internal ones and replace none of them. *)
Theorem className_internal_then_caller :
  ∀ inProps (ref : value) inst,
    checkPropTypes (l_props (locals I inProps)) = true →
    is_object (get (rootOverrideProps I (locals I inProps)) "className") = false →
    ∃ (out : Rendered) inst' classes,
      FormControl I inProps ref inst = Some (out, inst')
      ∧ useUtilityClasses I (ownerState (locals I inProps)) = Some classes
      ∧ get (rootProps out) "className"
        = VStr (String.concat " "
                  (classList (get classes "root")
                   ++ classList (l_className (locals I inProps))
                   ++ classList (get (rootOverrideProps I (locals I inProps))
                                     "className"))).
Proof.
  intros inProps ref inst Htyped Hoverride.
  destruct (FormControl_returns I inProps ref inst Htyped Hoverride)
    as [[out inst'] Hrender].
  destruct (className_rendered _ _ _ _ _ Hrender) as (classes & Hclasses & Hcn).
  by exists out, inst', classes.
Qed.

End RootClassName.

(** ** The scenarios, run *)

Section Runs.

Example render_scenarioHorizontal :
  (λ r, get (rootProps r.1) "className")
    <$> FormControl development scenarioHorizontal VNull firstInstance
  = Some (VStr "JoyFormControl-root JoyFormControl-horizontal JoyFormControl-sizeSm").
Proof. vm_compute. reflexivity. Qed.

Lemma className_internal_then_caller_witness :
  ∃ (out : Rendered) inst',
    FormControl development scenarioClassName VNull firstInstance
    = Some (out, inst')
    ∧ get (rootProps out) "className"
      = VStr "JoyFormControl-root JoyFormControl-horizontal JoyFormControl-sizeSm mt-2".
Proof.
  destruct (className_internal_then_caller development scenarioClassName VNull
              firstInstance)
    as (out & inst' & classes & Hrender & Hclasses & Hcn).
  - vm_compute. reflexivity.
  - vm_compute. reflexivity.
  - exists out, inst'. split; [exact Hrender|]. rewrite Hcn.
    vm_compute in Hclasses. injection Hclasses as <-.
    vm_compute. reflexivity.
Defined.


Lemma renderTarget_override_witness :
  ∃ r, resolveSlot (λ _, ∅) sectionOverride "root" rootConfig = Some r
       ∧ renderTarget r = VStr "section".
Proof.
  destruct (renderTarget_override (λ _, ∅) sectionOverride "root" rootConfig)
    as (r & Hr & Htarget & _).
  - vm_compute. reflexivity.
  - exists r. split; [exact Hr|]. rewrite Htarget. vm_compute. reflexivity.
Defined.

Lemma registerEffect_advisory_witness :
  ∃ f cleanup inst1,
    registerEffectOf development = Some f
    ∧ f firstInstance = (Returned cleanup, inst1)
    ∧ registeredInput inst1 = true
    ∧ console inst1 = [].
Proof.
  assert (NODE_ENV development ≠ "production") as Hmode
    by (vm_compute; discriminate).
  destruct (registerEffect_advisory development firstInstance Hmode)
    as (f & cleanup & inst1 & Hf & Hrun & Hflag & Hconsole & _).
  exists f, cleanup, inst1. split_and!; [exact Hf|exact Hrun|exact Hflag|].
  rewrite Hconsole. vm_compute. reflexivity.
Defined.

Lemma context_ids_witness :
  ∃ (out : Rendered) inst',
    FormControl development scenarioHorizontal VNull
      (run development history firstInstance) = Some (out, inst')
    ∧ get (formControlContextValue out) "aria-describedby"
      = VStr ":r0:-helper-text"
    ∧ get (formControlContextValue out) "labelId" = VStr ":r0:-label".
Proof.
  destruct (context_ids development history 2 scenarioHorizontal VNull)
    as (out & inst' & Hrender & Haria & _ & Hlabel & _).
  - vm_compute. reflexivity.
  - vm_compute. reflexivity.
  - exists out, inst'. split; [exact Hrender|]. split.
    + rewrite Haria. vm_compute. reflexivity.
    + rewrite Hlabel. vm_compute. reflexivity.
Defined.

End Runs.

(** * More of FormControl.tsx *)

Import RootStyle Shape History Samples.

#[local] Set Warnings "-clear-no-such-hyp".

(** ** What a render hands on *)

Section Handover.

Context (I : Imports).
Implicit Types (inProps props : gmap string value) (l : Locals) (k : string).

Lemma lookup_rest props k :
  rest props !! k = if decide (k ∈ destructured) then None else props !! k.
Proof.
  unfold rest, destructured. cbn [foldr].
  case_decide as Hk.
  - rewrite !elem_of_cons in Hk.
    destruct Hk as [->|[->|[->|[->|[->|[->|[->|[->|[->|Hk]]]]]]]]];
      try (by apply elem_of_nil in Hk);
      by rewrite ?lookup_delete_ne, lookup_delete_eq by done.
  - rewrite !not_elem_of_cons in Hk.
    destruct Hk as (? & ? & ? & ? & ? & ? & ? & ? & ? & _).
    by rewrite !lookup_delete_ne by done.
Qed.

(** The props forwarded to the root slot are the resolved props without
    id, className, disabled, required, error, color, size and orientation,
    which never reach the element this way, and with [component], which is
    always there, ['div'] when the caller gave none. *)
Theorem forwarded_props :
  ∀ inProps (ref : value) (classes : gmap string value)
    (parameters : SlotConfig) k,
    rootParameters I (locals I inProps) ref classes = Some parameters →
    externalForwardedProps parameters !! k
    = if decide (k = "component")
      then Some (dflt (VStr "div") (get (l_props (locals I inProps)) "component"))
      else if decide (k ∈ destructured) then None
           else l_props (locals I inProps) !! k.
Proof.
  intros inProps ref classes parameters k. unfold rootParameters.
  destruct (clsx _) as [cn|]; [|done]. intros [= <-].
  cbn [externalForwardedProps].
  case_decide as Hc.
  - subst k. by rewrite lookup_insert_eq.
  - rewrite lookup_insert_ne by done. apply lookup_rest.
Qed.

(** The ownerState has the keys of the resolved props and the eight keys
    of the internal state, [color] too when the caller gave none; apart
    from [id], a value of the props that is not [undefined] is the value
    of the ownerState: [null], [false], [0] and the empty string are not
    replaced by a default. *)
Theorem ownerState_keeps_explicit :
  ∀ inProps k,
    dom (ownerState (locals I inProps))
    = dom (l_props (locals I inProps)) ∪ internalKeys
    ∧ (k ≠ "id" →
       get (l_props (locals I inProps)) k ≠ VUndefined →
       get (ownerState (locals I inProps)) k
       = get (l_props (locals I inProps)) k).
Proof.
  intros inProps k. set (l := locals I inProps). split.
  - unfold ownerState, internalKeys. rewrite !dom_insert_L. set_solver.
  - intros Hid Hexplicit.
    destruct (get_ownerState l) as (_ & Hcomponent & Hc & Hd & He & Hr & Hs & Ho).
    destruct (decide (k = "component")) as [->|?];
      [rewrite Hcomponent; by apply dflt_defined|].
    destruct (decide (k = "color")) as [->|?]; [by rewrite Hc|].
    destruct (decide (k = "disabled")) as [->|?];
      [rewrite Hd; by apply dflt_defined|].
    destruct (decide (k = "error")) as [->|?];
      [rewrite He; by apply dflt_defined|].
    destruct (decide (k = "required")) as [->|?];
      [rewrite Hr; by apply dflt_defined|].
    destruct (decide (k = "size")) as [->|?];
      [rewrite Hs; by apply dflt_defined|].
    destruct (decide (k = "orientation")) as [->|?];
      [rewrite Ho; by apply dflt_defined|].
    unfold ownerState, get. by rewrite !lookup_insert_ne by done.
Qed.

Lemma get_ownerState_props l k :
  k ∉ internalKeys → get (ownerState l) k = get (l_props l) k.
Proof.
  unfold internalKeys. intros Hk.
  unfold ownerState, get. rewrite !lookup_insert_ne; [done|set_solver..].
Qed.

(** When the resolved props pass the validators of [propTypes] and
    [useId] gives a string or nothing, the ownerState that the render
    builds from them passes the validators too: the defaults that the
    destructuring fills in are of the declared types. *)
Theorem ownerState_validated :
  ∀ inProps,
    checkPropTypes (l_props (locals I inProps)) = true →
    nullish (l_id (locals I inProps)) || is_string (l_id (locals I inProps))
    = true →
    checkPropTypes (ownerState (locals I inProps)) = true.
Proof.
  intros inProps. set (l := locals I inProps).
  destruct (get_ownerState l) as (Hi & Hcomponent & Hc & Hd & He & Hr & Hs & Ho).
  destruct (locals_defaults I inProps) as (Hlc & Hld & Hle & Hlr & Hls & Hlo).
  assert (l_component l = dflt (VStr "div") (get (l_props l) "component"))
    as Hlcomponent by reflexivity.
  fold l in Hlc, Hld, Hle, Hlr, Hls, Hlo.
  unfold checkPropTypes, propTypes. cbn [forallb fst snd].
  rewrite Hi, Hcomponent, Hc, Hd, He, Hr, Hs, Ho.
  rewrite Hlcomponent, Hlc, Hld, Hle, Hlr, Hls, Hlo.
  rewrite !(get_ownerState_props l) by (unfold internalKeys; set_solver).
  rewrite !andb_true_iff.
  intros (Hchildren & Hclass & Hcolor & Hcomp & Hdis & Herr & _ & Hor & Hreq
          & Hsize & Hsx & _) Hid.
  split_and!; try done.
  - by destruct (get (l_props l) "component").
  - by destruct (get (l_props l) "disabled").
  - by destruct (get (l_props l) "error").
  - by destruct (get (l_props l) "orientation").
  - by destruct (get (l_props l) "required").
  - by destruct (get (l_props l) "size").
Qed.

End Handover.

(** ** The order of the tokens *)

Section TokenOrder.

Implicit Types (os : gmap string value) (v : value) (l : list string).

Lemma filter_ne_absent (x : string) l : x ∉ l → filter (λ y, y ≠ x) l = l.
Proof.
  induction l as [|y l IH]; [done|].
  rewrite not_elem_of_cons. intros [Hne Hnot].
  rewrite filter_cons_True by congruence. by rewrite IH.
Qed.

Lemma dedup_NoDup l : NoDup l → dedup l = l.
Proof.
  induction 1 as [|x l Hnot _ IH]; [done|].
  simpl. rewrite IH. by rewrite filter_ne_absent.
Qed.

(** What one entry of a slot's array gives before duplicates go. *)
Lemma tokens_raw_cons v (keys : list value) :
  to_str <$> filter (λ k, truthy k = true) (v :: keys)
  = ((if truthy v then [to_str v] else [])
     ++ (to_str <$> filter (λ k, truthy k = true) keys))%list.
Proof.
  destruct (truthy v) eqn:Hv.
  - by rewrite filter_cons_True by done.
  - rewrite filter_cons_False by congruence. done.
Qed.

Lemma and_template_part v (dimension : string) :
  dimension ≠ "" →
  nullish v || is_string v = true →
  ∃ entry,
    and_template v dimension = Some entry
    ∧ (if truthy entry then [to_str entry] else [])
      = match v with
        | VStr s => if decide (s = "") then [] else [dimension +:+ capitalize s]
        | _ => []
        end.
Proof.
  intros Hdim Htyped. unfold and_template.
  destruct v as [| | | |s|]; simpl in Htyped; try discriminate.
  - by eexists.
  - by eexists.
  - destruct (truthy (VStr s)) eqn:Hs.
    + apply truthy_str in Hs. rewrite decide_False by done.
      eexists. split; [reflexivity|].
      assert (truthy (VStr (dimension +:+ capitalize s)) = true) as ->; [|done].
      apply truthy_str. destruct dimension; [done|discriminate].
    + assert (s = "") as ->.
      { destruct (decide (s = "")) as [?|Hne]; [done|].
        apply truthy_str in Hne. congruence. }
      by eexists.
Qed.

Ltac distinct_tokens :=
  repeat (apply NoDup_cons; split;
          [rewrite ?not_elem_of_cons; split_and?;
           try discriminate; apply not_elem_of_nil|]);
  apply NoDup_nil_2.

(** For an ownerState that passes the validators, the tokens of the root
    slot are, in this order: [root], the orientation, [disabled], [error],
    the color token, the size token, each one only when its dimension
    gives one; no token comes twice. *)
Theorem rootTokens_order :
  ∀ os,
    checkPropTypes os = true →
    rootTokens os
    = Some (["root"]
            ++ match get os "orientation" with VStr o => [o] | _ => [] end
            ++ (if decide (get os "disabled" = VBool true)
                then ["disabled"] else [])
            ++ (if decide (get os "error" = VBool true) then ["error"] else [])
            ++ match get os "color" with
               | VStr c => if decide (c = "") then []
                           else ["color" +:+ capitalize c]
               | _ => []
               end
            ++ match get os "size" with
               | VStr s => if decide (s = "") then []
                           else ["size" +:+ capitalize s]
               | _ => []
               end)%list.
Proof.
  intros os Htyped.
  apply checkPropTypes_styling in Htyped
    as (Hdisabled & Herror & Hcolor & Hsize & Horientation).
  unfold rootTokens, rootSlot.
  destruct (and_template_part _ "color" ltac:(done) Hcolor) as (c & -> & Hc).
  destruct (and_template_part _ "size" ltac:(done) Hsize) as (s & -> & Hs).
  cbn [mbind option_bind fmap option_fmap option_map]. f_equal.
  unfold tokens. rewrite !tokens_raw_cons. cbn [filter list_filter fmap list_fmap].
  rewrite Hc, Hs. clear Hc Hs c s.
  assert ((if truthy (get os "orientation") then [to_str (get os "orientation")]
           else [])
          = match get os "orientation" with VStr o => [o] | _ => [] end) as ->.
  { destruct Horientation as [Hn|[-> | ->]]; [|done..].
    by destruct (get os "orientation"). }
  assert ((if truthy (and_ (get os "disabled") (VStr "disabled"))
           then [to_str (and_ (get os "disabled") (VStr "disabled"))] else [])
          = if decide (get os "disabled" = VBool true) then ["disabled"] else [])
    as ->.
  { unfold and_. destruct (get os "disabled") as [| |[]| | |];
      simpl in Hdisabled; try discriminate; done. }
  assert ((if truthy (and_ (get os "error") (VStr "error"))
           then [to_str (and_ (get os "error") (VStr "error"))] else [])
          = if decide (get os "error" = VBool true) then ["error"] else [])
    as ->.
  { unfold and_. destruct (get os "error") as [| |[]| | |];
      simpl in Herror; try discriminate; done. }
  rewrite app_nil_r. cbn [truthy to_str String.eqb negb].
  apply dedup_NoDup.
  assert (∀ v : value, ∀ dimension : string,
            match v with
            | VStr x => if decide (x = "") then []
                        else [dimension +:+ capitalize x]
            | _ => []
            end = []
            ∨ ∃ x, match v with
                   | VStr x => if decide (x = "") then []
                               else [dimension +:+ capitalize x]
                   | _ => []
                   end = [dimension +:+ capitalize x]) as Hpart.
  { intros [| | | |x|] dimension; try (by left).
    case_decide; [by left|right; by exists x]. }
  destruct (Hpart (get os "color") "color") as [-> | [c ->]];
    destruct (Hpart (get os "size") "size") as [-> | [s ->]];
    destruct (decide (get os "disabled" = VBool true));
    destruct (decide (get os "error" = VBool true));
    (destruct Horientation as [Hn|[-> | ->]];
     [destruct (get os "orientation"); simpl in Hn; try discriminate|..]);
    cbn [app]; distinct_tokens.
Qed.

End TokenOrder.

(** ** Histories *)

Section Histories.

Context (I : Imports).
Implicit Types (inst : Instance) (inProps : gmap string value) (ref : value).
Implicit Types (events : list Event).

(** What a render writes: the memo cell and the closure counter. *)
Lemma FormControl_frame inst inProps ref (out : Rendered) inst' :
  FormControl I inProps ref inst = Some (out, inst') →
  registeredInput inst' = registeredInput inst
  ∧ helperText inst' = helperText inst
  ∧ setHelperText inst' = setHelperText inst
  ∧ console inst' = console inst
  ∧ nextClosure inst' = Pos.succ (nextClosure inst)
  ∧ memo inst'
    = Some (dependencies (locals I inProps) inst (registerEffectValue I inst),
            formControlContextValue out).
Proof.
  unfold FormControl.
  destruct (useUtilityClasses _ _) as [classes|]; [|done]. cbn [mbind option_bind].
  destruct (rootParameters _ _ _ _) as [parameters|]; [|done].
  cbn [mbind option_bind].
  destruct (useSlot _ _ _) as [slot|]; [|done]. cbn [mbind option_bind].
  by intros [= <- <-].
Qed.

Lemma handle_production inst (e : Event) :
  NODE_ENV I = "production" →
  registeredInput (handle I inst e) = registeredInput inst
  ∧ console (handle I inst e) = console inst.
Proof.
  intros Hmode.
  assert (registerEffectOf I = None) as Hnone.
  { unfold registerEffectOf. rewrite decide_False; [done|]. by intros []. }
  destruct e as [inProps ref|element| |]; simpl; rewrite ?Hnone; try done.
  destruct (FormControl I inProps ref inst) as [[out inst']|] eqn:Hrender;
    [|done].
  by destruct (FormControl_frame _ _ _ _ _ Hrender) as (? & _ & _ & ? & _).
Qed.

(** In a production build there is no [registerEffect]: whatever happens
    to an instance, its registration flag stays [false] and nothing is
    printed, and the context value of every render holds [undefined] for
    [registerEffect]. *)
Theorem production_is_silent :
  ∀ events (first : positive),
    NODE_ENV I = "production" →
    registerEffectOf I = None
    ∧ registeredInput (run I events (mount first)) = false
    ∧ console (run I events (mount first)) = []
    ∧ ∀ inProps ref (out : Rendered) inst',
        FormControl I inProps ref (run I events (mount first))
        = Some (out, inst') →
        get (formControlContextValue out) "registerEffect" = VUndefined.
Proof.
  intros events first Hmode.
  assert (∀ inst, registeredInput (run I events inst) = registeredInput inst
                  ∧ console (run I events inst) = console inst) as Hrun.
  { induction events as [|e events' IH]; intros inst; [done|].
    simpl. destruct (IH (handle I inst e)) as [-> ->].
    by apply handle_production. }
  split_and!.
  - unfold registerEffectOf. rewrite decide_False; [done|]. by intros [].
  - by rewrite (proj1 (Hrun _)).
  - by rewrite (proj2 (Hrun _)).
  - intros inProps ref out inst' Hrender.
    assert (memoSound (run I events (mount first))) as Hsound
      by (by apply run_memoSound).
    destruct (FormControl_context _ _ _ _ _ _ Hsound Hrender) as [-> _].
    unfold registerEffectValue. rewrite decide_False; [done|]. by intros [].
Qed.

(** Outside a production build, when registrations and cleanups take
    turns (one input that mounts, unmounts and mounts again), with any
    renders and helper-text changes in between, nothing is printed. *)
Theorem alternating_prints_nothing :
  ∀ events inst,
    NODE_ENV I ≠ "production" →
    alternating (registeredInput inst) events = true →
    console (run I events inst) = console inst.
Proof.
  intros events inst Hmode. revert inst.
  assert (registerEffectOf I = Some registerEffect) as Hsome.
  { unfold registerEffectOf. by rewrite decide_True. }
  induction events as [|e events' IH]; intros inst Halt; [done|].
  destruct e as [inProps ref|element| |]; cbn [run foldl alternating] in *.
  - fold (run I events' (handle I inst (Render inProps ref))).
    cbn [handle].
    destruct (FormControl I inProps ref inst) as [[out inst']|] eqn:Hrender.
    + destruct (FormControl_frame _ _ _ _ _ Hrender) as (Hflag & _ & _ & Hc & _).
      rewrite IH by (by rewrite Hflag). done.
    + by apply IH.
  - fold (run I events' (handle I inst (SetHelperText element))).
    by rewrite IH.
  - fold (run I events' (handle I inst RegisterEffect)).
    apply andb_true_iff in Halt as [Hfree Halt].
    apply negb_true_iff in Hfree.
    cbn [handle]. rewrite Hsome, registerEffect_run. cbn [snd].
    rewrite IH by done. cbn [console]. rewrite Hfree. by rewrite app_nil_r.
  - fold (run I events' (handle I inst Cleanup)).
    cbn [handle]. rewrite Hsome. by rewrite IH.
Qed.

Lemma handle_closureOlder inst (e : Event) :
  closureOlder inst → closureOlder (handle I inst e).
Proof.
  intros Hold. destruct e as [inProps ref|element| |]; simpl.
  - destruct (FormControl I inProps ref inst) as [[out inst']|] eqn:Hrender;
      [|done].
    destruct (FormControl_frame _ _ _ _ _ Hrender) as (_ & _ & _ & _ & Hn & Hm).
    unfold closureOlder. rewrite Hm, Hn. cbn [dependencies lookup list_lookup].
    unfold registerEffectValue. case_decide; intros h [= <-]. lia.
  - done.
  - destruct (registerEffectOf I) as [f|] eqn:Hf; [|done].
    unfold registerEffectOf in Hf. case_decide; [|done].
    injection Hf as <-. by rewrite registerEffect_run.
  - by destruct (registerEffectOf I).
Qed.

Lemma run_closureOlder events inst :
  closureOlder inst → closureOlder (run I events inst).
Proof.
  revert inst. induction events as [|e events' IH]; intros inst Hold; [done|].
  apply IH. by apply handle_closureOlder.
Qed.

(** Outside a production build [registerEffect] is a new function on
    every render and is among the dependencies of [useMemo]: in no render
    of an instance, whatever came before, are the dependencies those that
    the memo cell remembers, so the context value is built anew every
    time. *)
Theorem memo_never_reused :
  ∀ events (first : positive) inProps (deps : list value)
    (v : gmap string value),
    NODE_ENV I ≠ "production" →
    memo (run I events (mount first)) = Some (deps, v) →
    deps ≠ dependencies (locals I inProps) (run I events (mount first))
             (registerEffectValue I (run I events (mount first))).
Proof.
  intros events first inProps deps v Hmode Hmemo.
  assert (closureOlder (run I events (mount first))) as Hold
    by (by apply run_closureOlder).
  unfold closureOlder in Hold. rewrite Hmemo in Hold.
  intros ->. cbn [dependencies lookup list_lookup] in Hold.
  unfold registerEffectValue in Hold. rewrite decide_True in Hold by done.
  specialize (Hold _ eq_refl). lia.
Qed.

End Histories.

(** ** Object literals *)

Section ObjectLiterals.

Context {A : Type}.
Implicit Types (o : gmap string A) (k : string).

Lemma lookup_foldl_put (fields : list (string * A)) o k :
  foldl put o fields !! k
  = match lastWrite k fields with Some a => Some a | None => o !! k end.
Proof.
  revert o. induction fields as [|kv fields IH]; intros o; [done|].
  cbn [foldl lastWrite]. rewrite IH.
  destruct (lastWrite k fields); [done|].
  unfold put. rewrite lookup_insert. by destruct (decide (kv.1 = k)).
Qed.

Lemma lookup_foldl_step (entries : list (entry A)) o k :
  foldl step o entries !! k
  = match read k entries with Some a => Some a | None => o !! k end.
Proof.
  revert o. induction entries as [|e entries IH]; intros o; [done|].
  cbn [foldl read]. rewrite IH.
  destruct (read k entries); [done|].
  destruct e as [key a|cond fields]; cbn [step].
  - unfold put. rewrite lookup_insert. cbn [fst snd].
    by destruct (decide (key = k)).
  - destruct cond; [|done]. apply lookup_foldl_put.
Qed.

Lemma lookup_literal (entries : list (entry A)) k :
  literal entries !! k = read k entries.
Proof.
  unfold literal. rewrite lookup_foldl_step, lookup_empty.
  by destruct (read k entries).
Qed.

End ObjectLiterals.

(** ** The style of the root element *)

Section RootStyles.

Implicit Types (cls os : gmap string value) (theme : ThemeVars).

Ltac read_key :=
  rewrite lookup_literal; cbn [read lastWrite sizeFields fst snd];
  repeat first [rewrite decide_True by reflexivity
               |rewrite decide_False by discriminate].

(** The style function throws when the theme has no danger palette and
    returns otherwise; the root is a flex container, a row exactly when
    the orientation is ['horizontal'] and a column for every other
    orientation, [undefined] too, and the label is aligned accordingly.
    No selector key, whatever the class names are, replaces one of these
    declarations. *)
Theorem styles_layout :
  ∀ cls theme os,
    match palette theme !! "danger" with
    | None => FormControlRootStyles cls theme os = None
    | Some _ =>
        ∃ styles,
          FormControlRootStyles cls theme os = Some styles
          ∧ styles !! "display" = Some (Decl (VStr "flex"))
          ∧ styles !! "position" = Some (Decl (VStr "relative"))
          ∧ styles !! "--FormHelperText-margin"
            = Some (Decl (VStr "0.375rem 0 0 0"))
          ∧ styles !! "flexDirection"
            = Some (Decl (if decide (get os "orientation" = VStr "horizontal")
                          then VStr "row" else VStr "column"))
          ∧ styles !! "--FormLabel-alignSelf"
            = Some (Decl (if decide (get os "orientation" = VStr "horizontal")
                          then VStr "align-items" else VStr "flex-start"))
    end.
Proof.
  intros cls theme os. unfold FormControlRootStyles.
  destruct (palette theme !! "danger") as [danger|]; [|done].
  cbn [mbind option_bind]. eexists. split; [reflexivity|].
  split_and!; read_key; try done.
  - by destruct (bool_decide _), (bool_decide _), (bool_decide _),
      (bool_decide _).
  - by destruct (bool_decide _), (bool_decide _), (bool_decide _),
      (bool_decide _).
Qed.

Ltac decide_size :=
  repeat first [rewrite bool_decide_eq_true_2 by done
               |rewrite bool_decide_eq_false_2 by congruence].

(** With a danger palette in the theme, the font-size and margin
    variables of the label and the helper text are written for the sizes
    ['sm'], ['md'] and ['lg'] only: for any other size, a custom one or
    none, the style holds none of the three. The helper text has the font
    size [xs] for ['sm'] and [sm] for both ['md'] and ['lg']; the margin of
    the label depends on the size in a row only. *)
Theorem styles_size :
  ∀ cls theme os (danger : gmap string value),
    palette theme !! "danger" = Some danger →
    ∃ styles,
      FormControlRootStyles cls theme os = Some styles
      ∧ (styles !! "--FormLabel-fontSize",
         styles !! "--FormHelperText-fontSize",
         styles !! "--FormLabel-margin")
        = if decide (get os "size" = VStr "sm")
          then (Some (Decl (get (fontSize theme) "xs")),
                Some (Decl (get (fontSize theme) "xs")),
                Some (Decl (whenHorizontal os "0 0.5rem 0 0" "0 0 0.25rem 0")))
          else if decide (get os "size" = VStr "md")
          then (Some (Decl (get (fontSize theme) "sm")),
                Some (Decl (get (fontSize theme) "sm")),
                Some (Decl (whenHorizontal os "0 0.75rem 0 0" "0 0 0.25rem 0")))
          else if decide (get os "size" = VStr "lg")
          then (Some (Decl (get (fontSize theme) "md")),
                Some (Decl (get (fontSize theme) "sm")),
                Some (Decl (whenHorizontal os "0 1rem 0 0" "0 0 0.25rem 0")))
          else (None, None, None).
Proof.
  intros cls theme os danger Hdanger. unfold FormControlRootStyles.
  rewrite Hdanger. cbn [mbind option_bind]. eexists. split; [reflexivity|].
  destruct (decide (get os "size" = VStr "sm")) as [Hsm|Hsm];
    [|destruct (decide (get os "size" = VStr "md")) as [Hmd|Hmd];
      [|destruct (decide (get os "size" = VStr "lg")) as [Hlg|Hlg]]];
    (f_equal; [f_equal|]); read_key; decide_size; try done;
    by destruct (bool_decide _).
Qed.

(** With a danger palette in the theme: the color of the helper text is
    written at the top level unless the color is ['context'], and is then
    the token 500 of the palette of that color, [undefined] when the theme
    has no such palette; the asterisk has the danger color. The rule of the
    disabled class is empty for ['context'] and otherwise gives label and
    helper text the disabled color of the palette of the color, of
    ['neutral'] when the color is [undefined] or empty. The rule of the
    error class gives the helper text the danger color, and is lost when
    both classes have the same name. *)
Theorem styles_color :
  ∀ cls theme os (danger : gmap string value),
    palette theme !! "danger" = Some danger →
    let color := get os "color" in
    let disabledColor :=
      paletteToken theme (if truthy color then color else VStr "neutral")
        "plainDisabledColor" in
    let disabledRule :=
      Rule (if decide (color = VStr "context") then ∅
            else <["--FormHelperText-color" := disabledColor]>
                   {[ "--FormLabel-color" := disabledColor ]}) in
    ∃ styles,
      FormControlRootStyles cls theme os = Some styles
      ∧ styles !! "--FormLabel-asteriskColor" = Some (Decl (get danger "500"))
      ∧ styles !! "--FormHelperText-color"
        = (if decide (color = VStr "context") then None
           else Some (Decl (paletteToken theme color "500")))
      ∧ styles !! ("&." +:+ to_str (get cls "disabled")) = Some disabledRule
      ∧ styles !! ("&." +:+ to_str (get cls "error"))
        = Some (if decide (to_str (get cls "error") = to_str (get cls "disabled"))
                then disabledRule
                else Rule {[ "--FormHelperText-color" := get danger "500" ]}).
Proof.
  intros cls theme os danger Hdanger color disabledColor disabledRule.
  unfold FormControlRootStyles. rewrite Hdanger. cbn [mbind option_bind].
  eexists. split; [reflexivity|].
  assert (literal
            [ SpreadWhen (bool_decide (color ≠ VStr "context"))
                [ ("--FormLabel-color",
                    paletteToken theme (or_ color (VStr "neutral"))
                      "plainDisabledColor");
                  ("--FormHelperText-color",
                    paletteToken theme (or_ color (VStr "neutral"))
                      "plainDisabledColor") ] ]
          = if decide (color = VStr "context") then ∅
            else <["--FormHelperText-color" := disabledColor]>
                   {[ "--FormLabel-color" := disabledColor ]}) as Hrule.
  { unfold literal. cbn [foldl step].
    destruct (decide (color = VStr "context")) as [Hc|Hc].
    - by rewrite bool_decide_eq_false_2 by (by intros ?).
    - rewrite bool_decide_eq_true_2 by done. reflexivity. }
  fold color. rewrite Hrule. fold disabledRule. clear Hrule.
  split_and!.
  - read_key.
    by destruct (bool_decide _), (bool_decide _), (bool_decide _),
      (bool_decide _).
  - read_key.
    destruct (decide (color = VStr "context")) as [Hc|Hc].
    + rewrite (bool_decide_eq_false_2 (color ≠ VStr "context")) by (by intros ?).
      by destruct (bool_decide _), (bool_decide _), (bool_decide _).
    + rewrite (bool_decide_eq_true_2 (color ≠ VStr "context")) by done.
      by destruct (bool_decide _), (bool_decide _), (bool_decide _).
  - read_key. done.
  - rewrite lookup_literal. cbn [read lastWrite sizeFields fst snd].
    rewrite !(decide_False (P := _ = "&." +:+ _)) by discriminate.
    destruct (decide (to_str (get cls "error") = to_str (get cls "disabled")))
      as [Heq|Hne].
    + rewrite Heq. by rewrite decide_True.
    + rewrite (decide_False (P := "&." +:+ to_str (get cls "disabled") = _))
        by (intros Heq; apply Hne; symmetry; by apply (inj (String.app "&."))).
      rewrite decide_True by done. reflexivity.
Qed.

(** The style of a control that is given neither a size nor an
    orientation: the destructuring defaults reach the style function
    through the ownerState, so the root is a column with the font sizes of
    ['md'] and the margin of a column. *)
Theorem default_styles :
  ∀ (I : Imports) (inProps : gmap string value) cls theme
    (danger : gmap string value),
    palette theme !! "danger" = Some danger →
    get (l_props (locals I inProps)) "size" = VUndefined →
    get (l_props (locals I inProps)) "orientation" = VUndefined →
    ∃ styles,
      FormControlRootStyles cls theme (ownerState (locals I inProps))
      = Some styles
      ∧ styles !! "flexDirection" = Some (Decl (VStr "column"))
      ∧ styles !! "--FormLabel-fontSize"
        = Some (Decl (get (fontSize theme) "sm"))
      ∧ styles !! "--FormHelperText-fontSize"
        = Some (Decl (get (fontSize theme) "sm"))
      ∧ styles !! "--FormLabel-margin" = Some (Decl (VStr "0 0 0.25rem 0")).
Proof.
  intros I inProps cls theme danger Hdanger Hsize Horientation.
  destruct (get_ownerState (locals I inProps))
    as (_ & _ & _ & _ & _ & _ & Hs & Ho).
  destruct (locals_defaults I inProps) as (_ & _ & _ & _ & Hls & Hlo).
  cbv zeta in Hls, Hlo. rewrite Hls, Hsize in Hs. rewrite Hlo, Horientation in Ho.
  cbn [dflt] in Hs, Ho.
  unfold FormControlRootStyles. rewrite Hdanger. cbn [mbind option_bind].
  eexists. split; [reflexivity|].
  split_and!; read_key; unfold whenHorizontal; rewrite ?Hs, ?Ho;
    decide_size; try done; by destruct (bool_decide _).
Qed.

End RootStyles.

(** ** The ids of the context value *)

Section Ids.

Context (I : Imports).

Lemma length_string_app (a b : string) :
  String.length (a +:+ b) = (String.length a + String.length b)%nat.
Proof.
  induction a as [|x a IH]; [done|].
  change (S (String.length (a +:+ b))
          = S (String.length a + String.length b)).
  by rewrite IH.
Qed.

Lemma string_app_ne_self (a b : string) : b ≠ "" → a +:+ b ≠ a.
Proof.
  intros Hb Heq. apply (f_equal String.length) in Heq.
  rewrite length_string_app in Heq. destruct b; [done|]. simpl in Heq. lia.
Qed.

(** In every render that returns, whatever came before, the three ids of
    the context value differ: [labelId] is neither [htmlFor] nor
    [aria-describedby], and [aria-describedby], when a helper text is
    registered, is not [htmlFor]. When [useId] gives [undefined],
    [labelId] is still a string, the text [undefined-label]. *)
Theorem context_ids_distinct :
  ∀ (events : list Event) (first : positive) (inProps : gmap string value)
    (ref : value) (out : Rendered) inst',
    FormControl I inProps ref (run I events (mount first)) = Some (out, inst') →
    let ctx := formControlContextValue out in
    get ctx "labelId" ≠ get ctx "htmlFor"
    ∧ get ctx "labelId" ≠ get ctx "aria-describedby"
    ∧ (helperText (run I events (mount first)) ≠ None →
       get ctx "aria-describedby" ≠ get ctx "htmlFor")
    ∧ (get ctx "htmlFor" = VUndefined →
       get ctx "labelId" = VStr "undefined-label").
Proof.
  intros events first inProps ref out inst' Hrender ctx.
  assert (memoSound (run I events (mount first))) as Hsound
    by (by apply run_memoSound).
  destruct (FormControl_context _ _ _ _ _ _ Hsound Hrender) as [Hctx _].
  subst ctx. rewrite Hctx. set (l := locals I inProps).
  set (inst := run I events (mount first)).
  assert (get (contextValue l inst (registerEffectValue I inst)) "labelId"
          = VStr (to_str (l_id l) +:+ "-label")) as -> by reflexivity.
  assert (get (contextValue l inst (registerEffectValue I inst)) "htmlFor"
          = l_id l) as -> by reflexivity.
  assert (get (contextValue l inst (registerEffectValue I inst))
            "aria-describedby"
          = match helperText inst with
            | Some _ => VStr (to_str (l_id l) +:+ "-helper-text")
            | None => VUndefined
            end) as ->.
  { unfold contextValue, helperTextValue. by destruct (helperText inst). }
  split_and!.
  - intros Heq. destruct (l_id l) as [| | | |s|]; try discriminate.
    injection Heq as Heq. by apply string_app_ne_self in Heq.
  - destruct (helperText inst); [|done].
    intros [= Heq]. by apply (inj (String.app _)) in Heq.
  - intros Hhelper. destruct (helperText inst); [|done].
    intros Heq. destruct (l_id l) as [| | | |s|]; try discriminate.
    injection Heq as Heq. by apply string_app_ne_self in Heq.
  - by intros ->.
Qed.

(** In every render that returns, whatever came before, the context value
    gives the descendants the values the root is styled with: disabled,
    required, error, color and size are those of the ownerState, defaults
    included, and [htmlFor] is its id. It has ten keys; orientation,
    component and className are not among them. *)
Theorem context_agrees_with_ownerState :
  ∀ (events : list Event) (first : positive) (inProps : gmap string value)
    (ref : value) (out : Rendered) inst',
    FormControl I inProps ref (run I events (mount first)) = Some (out, inst') →
    let ctx := formControlContextValue out in
    let os := ownerState (locals I inProps) in
    (∀ k, k ∈ ["disabled"; "required"; "error"; "color"; "size"] →
          get ctx k = get os k)
    ∧ get ctx "htmlFor" = get os "id"
    ∧ dom ctx
      = {[ "disabled"; "required"; "error"; "color"; "size"; "htmlFor";
           "labelId"; "aria-describedby"; "setHelperText"; "registerEffect" ]}.
Proof.
  intros events first inProps ref out inst' Hrender ctx os.
  assert (memoSound (run I events (mount first))) as Hsound
    by (by apply run_memoSound).
  destruct (FormControl_context _ _ _ _ _ _ Hsound Hrender) as [Hctx _].
  subst ctx os. rewrite Hctx. set (l := locals I inProps).
  destruct (get_ownerState l) as (Hi & _ & Hc & Hd & He & Hr & Hs & _).
  split_and!.
  - intros k Hk. rewrite !elem_of_cons in Hk.
    destruct Hk as [->|[->|[->|[->|[->|Hk]]]]];
      [by rewrite Hd|by rewrite Hr|by rewrite He|by rewrite Hc|by rewrite Hs|].
    by apply elem_of_nil in Hk.
  - by rewrite Hi.
  - unfold contextValue, list_to_map. cbn [foldr fst snd].
    rewrite !dom_insert_L, dom_empty_L. set_solver.
Qed.

End Ids.

(** ** More scenarios, run *)

Section MoreRuns.

Lemma forwarded_props_witness :
  ∃ parameters,
    rootParameters development (locals development scenarioForwarded) VNull
      {[ "root" := VStr "JoyFormControl-root" ]} = Some parameters
    ∧ externalForwardedProps parameters !! "size" = None
    ∧ externalForwardedProps parameters !! "className" = None
    ∧ externalForwardedProps parameters !! "component" = Some (VStr "div")
    ∧ externalForwardedProps parameters !! "data-testid"
      = Some (VStr "control").
Proof.
  assert (∃ parameters,
            rootParameters development (locals development scenarioForwarded)
              VNull {[ "root" := VStr "JoyFormControl-root" ]}
            = Some parameters) as [parameters Hparameters]
    by (vm_compute; eauto).
  exists parameters. split; [exact Hparameters|].
  rewrite !(forwarded_props development scenarioForwarded VNull _ parameters _
              Hparameters).
  vm_compute. done.
Defined.

Lemma ownerState_keeps_explicit_witness :
  get (ownerState (locals development scenarioNull)) "disabled" = VNull
  ∧ "color" ∈ dom (ownerState (locals development scenarioNull)).
Proof.
  destruct (ownerState_keeps_explicit development scenarioNull "disabled")
    as [Hdom Hkeep].
  split.
  - rewrite Hkeep; [vm_compute; reflexivity|discriminate|].
    vm_compute. discriminate.
  - rewrite Hdom. apply elem_of_union_r. unfold internalKeys.
    rewrite !elem_of_union, !elem_of_singleton. auto 10.
Defined.

Lemma ownerState_validated_witness :
  checkPropTypes (ownerState (locals development scenarioClassName)) = true.
Proof.
  apply (ownerState_validated development scenarioClassName);
    vm_compute; reflexivity.
Defined.

Lemma rootTokens_order_witness :
  rootTokens scenarioFull
  = Some ["root"; "vertical"; "disabled"; "colorPrimary"; "sizeLg"].
Proof.
  rewrite (rootTokens_order scenarioFull) by (vm_compute; reflexivity).
  vm_compute. reflexivity.
Defined.

Lemma production_is_silent_witness :
  registeredInput (run production remount firstInstance) = false
  ∧ console (run production remount firstInstance) = [].
Proof.
  destruct (production_is_silent production remount 2) as (_ & Hflag & Hconsole & _).
  - vm_compute. reflexivity.
  - split; [exact Hflag|exact Hconsole].
Defined.

Lemma alternating_prints_nothing_witness :
  console (run development remount firstInstance) = [].
Proof.
  rewrite (alternating_prints_nothing development remount firstInstance).
  - reflexivity.
  - vm_compute. discriminate.
  - vm_compute. reflexivity.
Defined.

Lemma memo_never_reused_witness :
  ∃ deps v,
    memo (run development remount firstInstance) = Some (deps, v)
    ∧ deps ≠ dependencies (locals development ∅)
               (run development remount firstInstance)
               (registerEffectValue development
                  (run development remount firstInstance)).
Proof.
  assert (∃ deps v, memo (run development remount firstInstance)
                    = Some (deps, v)) as (deps & v & Hmemo)
    by (vm_compute; eauto).
  exists deps, v. split; [exact Hmemo|].
  apply (memo_never_reused development remount 2 ∅ deps v).
  - vm_compute. discriminate.
  - exact Hmemo.
Defined.

Lemma styles_size_witness :
  ∃ styles,
    FormControlRootStyles sampleClasses sampleTheme scenarioHorizontal
    = Some styles
    ∧ styles !! "--FormLabel-margin" = Some (Decl (VStr "0 0.5rem 0 0"))
    ∧ styles !! "--FormLabel-fontSize" = Some (Decl (VStr "0.75rem")).
Proof.
  destruct (styles_size sampleClasses sampleTheme scenarioHorizontal
              (list_to_map [ ("500", VStr "#d3232f") ]))
    as (styles & Hstyles & Hsize).
  - vm_compute. reflexivity.
  - exists styles. split; [exact Hstyles|].
    vm_compute in Hsize. injection Hsize as Hlabel Hhelper Hmargin.
    split; [exact Hmargin|exact Hlabel].
Defined.

Lemma styles_color_witness :
  ∃ styles,
    FormControlRootStyles sampleClasses sampleTheme scenarioFull = Some styles
    ∧ styles !! "--FormHelperText-color" = Some (Decl (VStr "#096bde"))
    ∧ styles !! "&.Joy-disabled"
      = Some (Rule (list_to_map
                      [ ("--FormLabel-color", VStr "#99ccf3");
                        ("--FormHelperText-color", VStr "#99ccf3") ])).
Proof.
  destruct (styles_color sampleClasses sampleTheme scenarioFull
              (list_to_map [ ("500", VStr "#d3232f") ]))
    as (styles & Hstyles & _ & Hhelper & Hdisabled & _).
  - vm_compute. reflexivity.
  - exists styles. split; [exact Hstyles|]. split.
    + rewrite Hhelper. vm_compute. reflexivity.
    + change ("&.Joy-disabled")
        with ("&." +:+ to_str (get sampleClasses "disabled")).
      rewrite Hdisabled. vm_compute. reflexivity.
Defined.

Lemma default_styles_witness :
  ∃ styles,
    FormControlRootStyles sampleClasses sampleTheme
      (ownerState (locals development ∅)) = Some styles
    ∧ styles !! "flexDirection" = Some (Decl (VStr "column"))
    ∧ styles !! "--FormLabel-fontSize" = Some (Decl (VStr "0.875rem")).
Proof.
  destruct (default_styles development ∅ sampleClasses sampleTheme
              (list_to_map [ ("500", VStr "#d3232f") ]))
    as (styles & Hstyles & Hflex & Hlabel & _).
  - vm_compute. reflexivity.
  - vm_compute. reflexivity.
  - vm_compute. reflexivity.
  - exists styles. split; [exact Hstyles|]. split; [exact Hflex|].
    rewrite Hlabel. vm_compute. reflexivity.
Defined.

Lemma context_ids_distinct_witness :
  ∃ (out : Rendered) inst',
    FormControl development scenarioHorizontal VNull
      (run development remount firstInstance) = Some (out, inst')
    ∧ get (formControlContextValue out) "labelId"
      ≠ get (formControlContextValue out) "aria-describedby".
Proof.
  assert (∃ out inst',
            FormControl development scenarioHorizontal VNull
              (run development remount firstInstance) = Some (out, inst'))
    as (out & inst' & Hrender) by (vm_compute; eauto).
  exists out, inst'. split; [exact Hrender|].
  by destruct (context_ids_distinct development remount 2 scenarioHorizontal
                 VNull out inst' Hrender) as (_ & Hne & _).
Defined.

Lemma context_agrees_with_ownerState_witness :
  ∃ (out : Rendered) inst',
    FormControl development ∅ VNull (run development remount firstInstance)
    = Some (out, inst')
    ∧ get (formControlContextValue out) "size" = VStr "md"
    ∧ formControlContextValue out !! "orientation" = None.
Proof.
  assert (∃ out inst',
            FormControl development ∅ VNull
              (run development remount firstInstance) = Some (out, inst'))
    as (out & inst' & Hrender) by (vm_compute; eauto).
  exists out, inst'. split; [exact Hrender|].
  destruct (context_agrees_with_ownerState development remount 2 ∅ VNull
              out inst' Hrender) as (Hsame & _ & Hdom).
  split.
  - rewrite (Hsame "size") by (rewrite !elem_of_cons; auto 6).
    vm_compute. reflexivity.
  - apply not_elem_of_dom. rewrite Hdom.
    rewrite !elem_of_union, !elem_of_singleton.
    intros Hin. repeat destruct Hin as [Hin|Hin]; discriminate.
Defined.

End MoreRuns.
